(** * unistrap: the MBR kernel imager

    A shallow embedding of [unistrap.c] and the properties of the image it
    lays out.  The program opens a bootstrap file and a kernel file,
    creates the output image, and writes a packed header, the two
    payloads and a run of fill bytes that rounds the image up to a whole
    number of 512-byte sectors.

    The embedding fixes an LP64 little-endian platform: [int] has 32 bits,
    [size_t] and [off_t] have 64, and the packed [struct image_header]
    occupies 2+2+8+8+8+8 = 36 bytes.  Integers are [Z] with the wrap-around
    of their C type written out; the operating system is an explicit
    [world] threaded through the system calls. *)

From Stdlib Require Import ZArith Lia List Ascii.
From coqutil Require Import Byte Word.LittleEndianList.
From stdpp Require Import gmap strings list fin_maps.

Open Scope Z_scope.

(** * The program *)

(** ** C integer types *)

Module CInt.

(** [uint16_t] *)
Definition u16 (x : Z) : Z := x mod 2 ^ 16.

(** [size_t] *)
Definition usize (x : Z) : Z := x mod 2 ^ 64.

(** [off_t], two's complement *)
Definition off (x : Z) : Z := (x + 2 ^ 63) mod 2 ^ 64 - 2 ^ 63.

(** [int], two's complement *)
Definition int (x : Z) : Z := (x + 2 ^ 31) mod 2 ^ 32 - 2 ^ 31.

End CInt.

Import CInt.

(** ** Constants and macros of [unistrap.c] *)

Definition SECTOR_SIZE : Z := 0x200.
Definition MBR_END_OFFSET : Z := SECTOR_SIZE.

(** [#define ALIGN_UP(value, align) (((value) + (align)-1) & ~((align)-1))].
    The macro is untyped: [wrap] is the conversion to the type the
    addition is carried out in ([int] after promotion of a [uint16_t],
    [size_t] for a [size_t] operand).  [~((align)-1)] is computed in
    [int] and converted to that type for the [&]. *)
Definition ALIGN_UP (wrap : Z -> Z) (value align : Z) : Z :=
  Z.land (wrap (wrap (value + align) - 1)) (wrap (Z.lnot (align - 1))).

(** ** The image header *)

Record image_header : Type := ImageHeader {
  hdr_size : Z;        (* uint16_t *)
  sector_count : Z;    (* uint16_t *)
  bootstrap_off : Z;   (* off_t *)
  bootstrap_size : Z;  (* size_t *)
  kernel_off : Z;      (* off_t *)
  kernel_size : Z;     (* size_t *)
}.

(** Field assignments [hdr.f = v]; the value is converted to the field's
    type. *)
Definition set_hdr_size (v : Z) (h : image_header) : image_header :=
  ImageHeader (u16 v) (sector_count h) (bootstrap_off h) (bootstrap_size h)
    (kernel_off h) (kernel_size h).
Definition set_sector_count (v : Z) (h : image_header) : image_header :=
  ImageHeader (hdr_size h) (u16 v) (bootstrap_off h) (bootstrap_size h)
    (kernel_off h) (kernel_size h).
Definition set_bootstrap_off (v : Z) (h : image_header) : image_header :=
  ImageHeader (hdr_size h) (sector_count h) (off v) (bootstrap_size h)
    (kernel_off h) (kernel_size h).
Definition set_bootstrap_size (v : Z) (h : image_header) : image_header :=
  ImageHeader (hdr_size h) (sector_count h) (bootstrap_off h) (usize v)
    (kernel_off h) (kernel_size h).

(** [sizeof(struct image_header)] with [__attribute__((packed))]. *)
Definition sizeof_hdr : Z := 2 + 2 + 8 + 8 + 8 + 8.

(** The object representation of the header: the fields in declaration
    order, little-endian, no padding. *)
Definition hdr_bytes (h : image_header) : list byte :=
  le_split 2 (hdr_size h) ++ le_split 2 (sector_count h) ++
  le_split 8 (bootstrap_off h) ++ le_split 8 (bootstrap_size h) ++
  le_split 8 (kernel_off h) ++ le_split 8 (kernel_size h).

(** Reading the six fields back from the first 36 bytes of an image. *)
Definition field (start len : nat) (img : list byte) : Z :=
  le_combine (take len (drop start img)).

Definition parse_header (img : list byte) : image_header :=
  ImageHeader (field 0 2 img) (field 2 2 img)
    (off (field 4 8 img)) (field 12 8 img)
    (off (field 20 8 img)) (field 28 8 img).

(** ** Sizes computed by [generate] *)

(** [hdr.sector_count = hdr.hdr_size + k_sz + bs_sz;
     hdr.sector_count = ALIGN_UP(hdr.sector_count, SECTOR_SIZE);
     hdr.sector_count /= SECTOR_SIZE;]
    Every assignment stores into the 16-bit field. *)
Definition prepare_sector_count (k_sz bs_sz : Z) (h : image_header)
  : image_header :=
  let h := set_sector_count (usize (usize (hdr_size h + k_sz) + bs_sz)) h in
  let h := set_sector_count (ALIGN_UP int (sector_count h) SECTOR_SIZE) h in
  set_sector_count (int (Z.quot (sector_count h) SECTOR_SIZE)) h.

(** [total_sz = k_sz + bs_sz + sizeof(hdr);] *)
Definition total_size (k_sz bs_sz : Z) : Z :=
  usize (usize (k_sz + bs_sz) + sizeof_hdr).

(** [align_sz = ALIGN_UP(total_sz, SECTOR_SIZE); pad_sz = align_sz - total_sz;] *)
Definition pad_size (total_sz : Z) : Z :=
  usize (ALIGN_UP usize total_sz SECTOR_SIZE - total_sz).

(** ** The operating system

    Regular files live in [w_fs], keyed by path.  [w_locked] holds the
    paths that cannot be opened for writing.  [w_fds] is the descriptor
    table of the process and [w_maps] its file mappings, keyed by page
    number.  [w_script] lists the kernel's answers to the calls that may
    fail for reasons outside the model ([mmap], [write]), one per call,
    in order; once it is exhausted every call is carried out in full.
    [w_trace] records the system calls made, [w_stderr] and [w_stdout]
    what was printed. *)

Record fd_entry : Type := FdEntry {
  fe_path : string;
  fe_pos : Z;
  fe_write : bool;
}.

Inductive outcome : Type :=
| Done                 (* the call is carried out in full *)
| Short (n : Z)        (* a write transfers only [n] bytes *)
| Fail.                (* the call fails *)

Inductive event : Type :=
| EvOpen (path : string) (flags : Z) (fd : Z)
| EvLseek (fd : Z) (whence : Z) (res : Z)
| EvMmap (fd : Z) (len : Z) (addr : Z)
| EvWrite (fd : Z) (data : list byte)
| EvMunmap (addr len : Z)
| EvClose (fd : Z).

Record world : Type := World {
  w_fs : gmap string (list byte);
  w_locked : gset string;
  w_fds : gmap Z fd_entry;
  w_maps : gmap Z (list byte);
  w_script : list outcome;
  w_trace : list event;
  w_stderr : list string;
  w_stdout : list (Z * Z);
}.

Definition with_fs (fs : gmap string (list byte)) (w : world) : world :=
  World fs (w_locked w) (w_fds w) (w_maps w) (w_script w) (w_trace w)
    (w_stderr w) (w_stdout w).
Definition with_fds (fds : gmap Z fd_entry) (w : world) : world :=
  World (w_fs w) (w_locked w) fds (w_maps w) (w_script w) (w_trace w)
    (w_stderr w) (w_stdout w).
Definition with_maps (maps : gmap Z (list byte)) (w : world) : world :=
  World (w_fs w) (w_locked w) (w_fds w) maps (w_script w) (w_trace w)
    (w_stderr w) (w_stdout w).
Definition with_script (s : list outcome) (w : world) : world :=
  World (w_fs w) (w_locked w) (w_fds w) (w_maps w) s (w_trace w)
    (w_stderr w) (w_stdout w).
Definition log (e : event) (w : world) : world :=
  World (w_fs w) (w_locked w) (w_fds w) (w_maps w) (w_script w)
    (w_trace w ++ [e]) (w_stderr w) (w_stdout w).
Definition log_err (s : string) (w : world) : world :=
  World (w_fs w) (w_locked w) (w_fds w) (w_maps w) (w_script w) (w_trace w)
    (w_stderr w ++ [s]) (w_stdout w).
Definition log_out (r : Z * Z) (w : world) : world :=
  World (w_fs w) (w_locked w) (w_fds w) (w_maps w) (w_script w) (w_trace w)
    (w_stderr w) (w_stdout w ++ [r]).

(** The answer of the kernel to the next fallible call. *)
Definition next_outcome (w : world) : outcome * world :=
  match w_script w with
  | [] => (Done, w)
  | o :: s => (o, with_script s w)
  end.

(** The lowest key from [n] upwards that is not in [m]: descriptors and
    pages are handed out lowest first. *)
Fixpoint first_free {A} (m : gmap Z A) (fuel : nat) (n : Z) : Z :=
  match fuel with
  | O => n
  | S fuel' =>
      match m !! n with
      | Some _ => first_free m fuel' (n + 1)
      | None => n
      end
  end.

Definition lowest_free {A} (m : gmap Z A) (from : Z) : Z :=
  first_free m (size m) from.

(** A positioned write into the contents of a file; a gap past the end
    reads as zeros. *)
Definition pwrite (c : list byte) (pos : nat) (d : list byte) : list byte :=
  take pos c ++ repeat Byte.x00 (pos - length c) ++ d
    ++ drop (pos + length d) c.

(** ** The monad of [generate]: a world passed along, [None] when the
    program reads or writes outside one of its own arrays. *)

Definition M (A : Type) : Type := world -> option (A * world).

Definition ret {A} (a : A) : M A := fun w => Some (a, w).

Definition bind {A B} (m : M A) (k : A -> M B) : M B :=
  fun w => match m w with
           | Some (a, w') => k a w'
           | None => None
           end.

Definition array_access {A} (o : option A) : M A :=
  fun w => match o with Some a => Some (a, w) | None => None end.

Notation "x <~ c ;; k" := (bind c (fun x => k))
  (at level 100, c at next level, right associativity).
Notation "c ;;; k" := (bind c (fun _ => k))
  (at level 100, right associativity).

(** ** System calls *)

Definition O_RDONLY : Z := 0.
Definition O_WRONLY : Z := 1.
Definition O_CREAT : Z := 0x40.    (* 0100 *)
Definition O_TRUNC : Z := 0x200.   (* 01000 *)
Definition SEEK_SET : Z := 0.
Definition SEEK_CUR : Z := 1.
Definition SEEK_END : Z := 2.
Definition PAGE_SIZE : Z := 4096.
Definition NULL : Z := 0.
Definition MAP_FAILED : Z := usize (-1).

Definition file_size (w : world) (path : string) : Z :=
  Z.of_nat (length (default [] (w_fs w !! path))).

(** [open(path, flags, 0666)]: fails when the file is absent and
    [O_CREAT] is not given, or when it is to be written and is locked. *)
Definition sys_open (path : string) (flags : Z) : M Z := fun w =>
  let wr := Z.testbit flags 0 in
  let creat := Z.testbit flags 6 in
  let trunc := Z.testbit flags 9 in
  let present := bool_decide (is_Some (w_fs w !! path)) in
  let denied := (wr || creat) && bool_decide (path ∈ w_locked w) in
  if (negb present && negb creat) || denied then
    Some (-1, log (EvOpen path flags (-1)) w)
  else
    let fs := if negb present || (trunc && wr)
              then <[path := []]> (w_fs w) else w_fs w in
    let fd := lowest_free (w_fds w) 0 in
    Some (fd, log (EvOpen path flags fd)
                (with_fds (<[fd := FdEntry path 0 wr]> (w_fds w))
                   (with_fs fs w))).

(** [close(fd)] *)
Definition sys_close (fd : Z) : M Z := fun w =>
  let r := if bool_decide (is_Some (w_fds w !! fd)) then 0 else -1 in
  Some (r, log (EvClose fd) (with_fds (delete fd (w_fds w)) w)).

(** [lseek(fd, offset, whence)] *)
Definition sys_lseek (fd offset whence : Z) : M Z := fun w =>
  match w_fds w !! fd with
  | None => Some (-1, log (EvLseek fd whence (-1)) w)
  | Some e =>
      let base := if whence =? SEEK_SET then 0
                  else if whence =? SEEK_CUR then fe_pos e
                  else file_size w (fe_path e) in
      let pos := base + offset in
      if pos <? 0 then Some (-1, log (EvLseek fd whence (-1)) w)
      else Some (pos, log (EvLseek fd whence pos)
                        (with_fds (<[fd := FdEntry (fe_path e) pos (fe_write e)]>
                                     (w_fds w)) w))
  end.

(** [mmap(NULL, len, PROT_READ, MAP_SHARED, fd, 0)]: the address of a new
    mapping of the first [len] bytes of the file, or [MAP_FAILED].  A
    length of zero is always refused. *)
Definition sys_mmap (len : Z) (fd : Z) : M Z := fun w =>
  let (o, w) := next_outcome w in
  let failed := Some (MAP_FAILED, log (EvMmap fd len MAP_FAILED) w) in
  match w_fds w !! fd, o with
  | Some e, (Done | Short _) =>
      if (0 <? len) && negb (fe_write e) then
        let page := lowest_free (w_maps w) 1 in
        let c := take (Z.to_nat len) (default [] (w_fs w !! fe_path e)) in
        Some (page * PAGE_SIZE,
              log (EvMmap fd len (page * PAGE_SIZE))
                (with_maps (<[page := c]> (w_maps w)) w))
      else failed
  | _, _ => failed
  end.

(** [munmap(addr, len)] *)
Definition sys_munmap (addr len : Z) : M Z := fun w =>
  if (0 <? len) && (addr mod PAGE_SIZE =? 0) then
    Some (0, log (EvMunmap addr len)
               (with_maps (delete (addr / PAGE_SIZE) (w_maps w)) w))
  else Some (-1, log (EvMunmap addr len) w).

(** The bytes a pointer returned by [mmap] refers to. *)
Definition mapped (w : world) (addr : Z) : option (list byte) :=
  if addr mod PAGE_SIZE =? 0 then w_maps w !! (addr / PAGE_SIZE) else None.

(** [write(fd, buf, count)], [buf] being the [count] bytes at the
    caller's buffer, or [None] for a bad address.  The result is the
    number of bytes transferred, or -1. *)
Definition sys_write (fd : Z) (buf : option (list byte)) (count : Z) : M Z :=
  fun w =>
  let (o, w) := next_outcome w in
  match w_fds w !! fd, buf, o with
  | Some e, Some b, (Done | Short _) =>
      if fe_write e then
        let d := take (Z.to_nat count) b in
        let d := match o with Short n => take (Z.to_nat n) d | _ => d end in
        let c := default [] (w_fs w !! fe_path e) in
        let n := Z.of_nat (length d) in
        Some (n, log (EvWrite fd d)
                   (with_fds (<[fd := FdEntry (fe_path e) (fe_pos e + n) true]>
                                (w_fds w))
                      (with_fs (<[fe_path e := pwrite c (Z.to_nat (fe_pos e)) d]>
                                  (w_fs w)) w)))
      else Some (-1, log (EvWrite fd []) w)
  | Some _, None, _ =>
      Some ((if count =? 0 then 0 else -1), log (EvWrite fd []) w)
  | _, _, _ => Some (-1, log (EvWrite fd []) w)
  end.

(** [write] from a pointer into the process's mappings. *)
Definition sys_write_ptr (fd addr count : Z) : M Z := fun w =>
  sys_write fd (mapped w addr) count w.

(** [perror(tag)] *)
Definition perror (tag : string) : M unit := fun w =>
  Some (tt, log_err tag w).

(** [printf("[*] Wrote %zu bytes, padded to %zu bytes\n", a, b)] *)
Definition printf_wrote (a b : Z) : M unit := fun w =>
  Some (tt, log_out (a, b) w).

(** [memset(buf, c, n)] on an array: defined only within its bounds. *)
Definition memset (buf : list byte) (c n : Z) : option (list byte) :=
  if (Z.to_nat n <=? length buf)%nat
  then Some (repeat (byte.of_Z c) (Z.to_nat n) ++ drop (Z.to_nat n) buf)
  else None.

(** The first [n] bytes of an array, as [write] reads them: defined only
    within its bounds. *)
Definition array_prefix (buf : list byte) (n : Z) : option (list byte) :=
  if (Z.to_nat n <=? length buf)%nat then Some (take (Z.to_nat n) buf) else None.

(** ** [output_append] and [generate] *)

(** Run-time parameters: the three globals set by [main]. *)
Record params : Type := Params {
  output_file : string;
  bootstrap_path : string;
  kernel_path : string;
}.

(** The locals [hdr] and [pad] of [generate] are declared without an
    initialiser: their first contents are whatever the stack holds. *)
Record frame : Type := Frame {
  fr_hdr : image_header;
  fr_pad : list byte;
}.

Definition output_append (out_fd in_fd sz : Z) : M Z :=
  data <~ sys_mmap sz in_fd ;;
  if data =? NULL then
    perror "mmap" ;;; ret (-1)
  else
    sys_write_ptr out_fd data sz ;;;
    sys_munmap data sz ;;;
    ret 0.

Definition generate (cfg : params) (fr : frame) : M Z :=
  let pad := fr_pad fr in
  let hdr := fr_hdr fr in
  bs_fd <~ sys_open (bootstrap_path cfg) O_RDONLY ;;
  if bs_fd <? 0 then
    perror "open[bs]" ;;; ret (-1)
  else
  k_fd <~ sys_open (kernel_path cfg) O_RDONLY ;;
  if k_fd <? 0 then
    sys_close bs_fd ;;; ret (-1)
  else
  out_fd <~ sys_open (output_file cfg)
              (Z.lor (Z.lor O_WRONLY O_CREAT) O_TRUNC) ;;
  if out_fd <? 0 then
    perror "open[out]" ;;;
    sys_close bs_fd ;;;
    sys_close k_fd ;;;
    ret (-1)
  else
  let hdr := set_hdr_size sizeof_hdr hdr in
  (* Initialize the bootstrap part of header *)
  r <~ sys_lseek bs_fd 0 SEEK_END ;;
  let bs_sz := usize r in
  sys_lseek bs_fd 0 SEEK_SET ;;;
  let hdr := set_bootstrap_size bs_sz hdr in
  let hdr := set_bootstrap_off MBR_END_OFFSET hdr in
  (* Initialize the kernel part of header *)
  r <~ sys_lseek k_fd 0 SEEK_END ;;
  let k_sz := usize r in
  sys_lseek k_fd 0 SEEK_SET ;;;
  let hdr := set_bootstrap_size k_sz hdr in
  let hdr := set_bootstrap_off (usize (MBR_END_OFFSET + bs_sz)) hdr in
  (* Prepare the header size *)
  let hdr := prepare_sector_count k_sz bs_sz hdr in
  sys_write out_fd (Some (hdr_bytes hdr)) sizeof_hdr ;;;
  r <~ output_append out_fd bs_fd bs_sz ;;
  if r <? 0 then
    sys_close out_fd ;;; sys_close bs_fd ;;; sys_close k_fd ;;; ret (-1)
  else
  r <~ output_append out_fd k_fd k_sz ;;
  if r <? 0 then
    sys_close out_fd ;;; sys_close bs_fd ;;; sys_close k_fd ;;; ret (-1)
  else
  let total_sz := total_size k_sz bs_sz in
  let align_sz := ALIGN_UP usize total_sz SECTOR_SIZE in
  let pad_sz := usize (align_sz - total_sz) in
  (if 0 <? pad_sz then
     pad <~ array_access (memset pad 0xEE pad_sz) ;;
     buf <~ array_access (array_prefix pad pad_sz) ;;
     sys_write out_fd (Some buf) pad_sz ;;;
     ret tt
   else ret tt) ;;;
  printf_wrote total_sz pad_sz ;;;
  sys_close out_fd ;;;
  sys_close bs_fd ;;;
  sys_close k_fd ;;;
  ret 0.

(** * Vocabulary of the properties *)

(** ** Resources held by the process *)

Definition open_fds (w : world) : gset Z := dom (w_fds w).
Definition mapped_pages (w : world) : gset Z := dom (w_maps w).

(** [keeps w w']: the step from [w] to [w'] neither acquires nor
    releases a descriptor or a mapping, and prints no diagnostic. *)
Definition keeps (w w' : world) : Prop :=
  open_fds w' = open_fds w ∧ mapped_pages w' = mapped_pages w ∧
  w_stderr w' = w_stderr w.

(** Whether [open(path, flags)] succeeds in [w]. *)
Definition openable (w : world) (path : string) (flags : Z) : bool :=
  negb ((negb (bool_decide (is_Some (w_fs w !! path)))
           && negb (Z.testbit flags 6))
        || ((Z.testbit flags 0 || Z.testbit flags 6)
              && bool_decide (path ∈ w_locked w))).

Definition CREATE_FLAGS : Z := Z.lor (Z.lor O_WRONLY O_CREAT) O_TRUNC.

(** [mmap] never yields a null pointer: either [MAP_FAILED] and no new
    mapping, or the page-aligned address of a page that was free. *)
Definition mmap_post (len : Z) (w : world) (r : Z) (w' : world) : Prop :=
  r ≠ NULL ∧ open_fds w' = open_fds w ∧ w_stderr w' = w_stderr w ∧
  ((r = MAP_FAILED ∧ mapped_pages w' = mapped_pages w) ∨
   (0 < len ∧ r `mod` PAGE_SIZE = 0 ∧
    (r / PAGE_SIZE ∉ mapped_pages w) ∧
    mapped_pages w' = {[r / PAGE_SIZE]} ∪ mapped_pages w)).

(** ** Every run of [generate] *)

(** Whether the three calls to [open] in [generate] succeed: both
    sources are there and the output may be written. *)
Definition opens_ok (cfg : params) (w : world) : bool :=
  bool_decide (is_Some (w_fs w !! bootstrap_path cfg))
  && bool_decide (is_Some (w_fs w !! kernel_path cfg))
  && bool_decide (output_file cfg ∉ w_locked w).

(** ** Runs without faults

    [faultless w]: the kernel carries out every [mmap] and [write] that is
    still to come in full. *)

Definition faultless (w : world) : Prop := Forall (eq Done) (w_script w).

(** The address [mmap] hands out for [len] bytes when nothing fails. *)
Definition map_addr (w : world) (len : Z) : Z :=
  if len =? 0 then MAP_FAILED else lowest_free (w_maps w) 1 * PAGE_SIZE.

(** ** The run in which nothing fails *)

Definition len (l : list byte) : Z := Z.of_nat (length l).

(** Both sources are there with contents [bs] and [k], the output may be
    written and is neither of the sources, the kernel carries out what
    it is asked, [pad] is the 512-byte array of the source, and the
    sizes are those of files that can exist (their sum fits [size_t]). *)
Record clean_run (cfg : params) (fr : frame) (w : world)
    (bs k : list byte) : Prop := CleanRun {
  cr_bootstrap : w_fs w !! bootstrap_path cfg = Some bs;
  cr_kernel : w_fs w !! kernel_path cfg = Some k;
  cr_output : output_file cfg ∉ w_locked w;
  cr_out_bs : output_file cfg ≠ bootstrap_path cfg;
  cr_out_k : output_file cfg ≠ kernel_path cfg;
  cr_faultless : faultless w;
  cr_pad : length (fr_pad fr) = 512%nat;
  cr_size : 36 + len bs + len k < 2 ^ 64;
}.

(** The header as [generate] has it when it writes it: the assignments
    of the source in their order, on the indeterminate [h0]. *)
Definition header_of (h0 : image_header) (bs_sz k_sz : Z) : image_header :=
  prepare_sector_count k_sz bs_sz
    (set_bootstrap_off (usize (MBR_END_OFFSET + bs_sz))
       (set_bootstrap_size k_sz
          (set_bootstrap_off MBR_END_OFFSET
             (set_bootstrap_size bs_sz (set_hdr_size sizeof_hdr h0))))).

(** The fill bytes for payloads [bs] and [k]. *)
Definition fill (bs k : list byte) : list byte :=
  repeat (byte.of_Z 0xEE) (Z.to_nat (pad_size (total_size (len k) (len bs)))).

(** The descriptors the three calls to [open] return. *)
Definition bs_fd_of (cfg : params) (w : world) : Z :=
  lowest_free (w_fds w) 0.
Definition k_fd_of (cfg : params) (w : world) : Z :=
  lowest_free (<[bs_fd_of cfg w := FdEntry (bootstrap_path cfg) 0 false]>
                 (w_fds w)) 0.
Definition out_fd_of (cfg : params) (w : world) : Z :=
  lowest_free (<[k_fd_of cfg w := FdEntry (kernel_path cfg) 0 false]>
                 (<[bs_fd_of cfg w := FdEntry (bootstrap_path cfg) 0 false]>
                    (w_fds w))) 0.

(** The system calls of a clean run, in order. *)
Definition run_trace (cfg : params) (fr : frame) (w : world)
    (bs k : list byte) : list event :=
  let bs_fd := bs_fd_of cfg w in
  let k_fd := k_fd_of cfg w in
  let out_fd := out_fd_of cfg w in
  [ EvOpen (bootstrap_path cfg) O_RDONLY bs_fd;
    EvOpen (kernel_path cfg) O_RDONLY k_fd;
    EvOpen (output_file cfg) CREATE_FLAGS out_fd;
    EvLseek bs_fd SEEK_END (len bs);
    EvLseek bs_fd SEEK_SET 0;
    EvLseek k_fd SEEK_END (len k);
    EvLseek k_fd SEEK_SET 0;
    EvWrite out_fd (hdr_bytes (header_of (fr_hdr fr) (len bs) (len k)));
    EvMmap bs_fd (len bs) (map_addr w (len bs));
    EvWrite out_fd bs;
    EvMunmap (map_addr w (len bs)) (len bs);
    EvMmap k_fd (len k) (map_addr w (len k));
    EvWrite out_fd k;
    EvMunmap (map_addr w (len k)) (len k) ]
  ++ (if 0 <? pad_size (total_size (len k) (len bs))
      then [EvWrite out_fd (fill bs k)] else [])
  ++ [ EvClose out_fd; EvClose bs_fd; EvClose k_fd ].

(** The image of a clean run. *)
Definition image (fr : frame) (bs k : list byte) : list byte :=
  hdr_bytes (header_of (fr_hdr fr) (len bs) (len k)) ++ bs ++ k ++ fill bs k.

(** What the 16-bit field holds after the three assignments to
    [hdr.sector_count], for a byte total [t]. *)
Definition stored_sectors (t : Z) : Z :=
  u16 (512 * ((u16 t + 511) / 512)) / 512.

(** The number of sectors of a [t]-byte image. *)
Definition sectors (t : Z) : Z := (t + 511) / 512.

(** ** Reading an image and a trace *)

(** The [n] bytes of [img] from offset [start]. *)
Definition slice (start n : nat) (img : list byte) : list byte :=
  take n (drop start img).

(** The buffers transferred by the writes to [fd], in order. *)
Definition writes_to (fd : Z) (tr : list event) : list (list byte) :=
  omap (fun e => match e with
                 | EvWrite fd' d => if decide (fd' = fd) then Some d else None
                 | _ => None
                 end) tr.

(** ** The stages of a run

    The system call an event records, without its result and without the
    bytes transferred: what the program asked for, not what it got. *)
Inductive call : Type :=
| CallOpen (path : string) (flags : Z)
| CallLseek (fd : Z) (whence : Z)
| CallMmap (fd : Z)
| CallWrite (fd : Z)
| CallMunmap
| CallClose (fd : Z).

Definition call_of (e : event) : call :=
  match e with
  | EvOpen path flags _ => CallOpen path flags
  | EvLseek fd whence _ => CallLseek fd whence
  | EvMmap fd _ _ => CallMmap fd
  | EvWrite fd _ => CallWrite fd
  | EvMunmap _ _ => CallMunmap
  | EvClose fd => CallClose fd
  end.

Definition calls (tr : list event) : list call := map call_of tr.

(** The calls of [generate] once its three files are open, stage by
    stage; [pad] is the count of fill bytes it reports. *)
Definition stage_calls (cfg : params) (w : world) (pad : Z) : list call :=
  let bs_fd := bs_fd_of cfg w in
  let k_fd := k_fd_of cfg w in
  let out_fd := out_fd_of cfg w in
  (* the three files *)
  [ CallOpen (bootstrap_path cfg) O_RDONLY;
    CallOpen (kernel_path cfg) O_RDONLY;
    CallOpen (output_file cfg) CREATE_FLAGS ]
  (* the sizes of the sources *)
  ++ [ CallLseek bs_fd SEEK_END; CallLseek bs_fd SEEK_SET;
       CallLseek k_fd SEEK_END; CallLseek k_fd SEEK_SET ]
  (* the header *)
  ++ [ CallWrite out_fd ]
  (* the bootstrap *)
  ++ [ CallMmap bs_fd; CallWrite out_fd; CallMunmap ]
  (* the kernel *)
  ++ [ CallMmap k_fd; CallWrite out_fd; CallMunmap ]
  (* the fill bytes *)
  ++ (if 0 <? pad then [CallWrite out_fd] else [])
  ++ [ CallClose out_fd; CallClose bs_fd; CallClose k_fd ].

(** From [w] to [w'] the calls [cs] were made, in this order, and
    nothing was printed. *)
Definition makes (cs : list call) (w w' : world) : Prop :=
  calls (w_trace w') = calls (w_trace w) ++ cs ∧
  w_stdout w' = w_stdout w ∧ w_stderr w' = w_stderr w.

(** ** Sample runs *)

(** A process as the shell starts it: the three standard descriptors
    open, no mapping, nothing printed yet. *)
Definition std_fds : gmap Z fd_entry :=
  <[0 := FdEntry "/dev/tty" 0 false]>
    (<[1 := FdEntry "/dev/tty" 0 true]>
       (<[2 := FdEntry "/dev/tty" 0 true]> ∅)).

Definition boot_world (fs : gmap string (list byte)) (script : list outcome)
  : world :=
  World fs ∅ std_fds ∅ script [] [] [].

(** The file names of the samples; [kernel.img] is the default output. *)
Definition cfg0 : params := Params "kernel.img" "boot.bin" "kernel.bin".

(** Arbitrary contents for the locals that [generate] does not initialise. *)
Definition junk_hdr : image_header :=
  ImageHeader 0xAAAA 0xBBBB 0x1111 0x2222 0x3333 0x4444.

Definition fr0 : frame := Frame junk_hdr (repeat Byte.x55 512).

Definition fs_of (bs k : list byte) : gmap string (list byte) :=
  <["boot.bin" := bs]> (<["kernel.bin" := k]> ∅).

(** The output file after a run. *)
Definition image_of (w : option (Z * world)) : list byte :=
  match w with
  | Some (_, w') => default [] (w_fs w' !! "kernel.img")
  | None => []
  end.

Definition payload_a : list byte := [Byte.x01; Byte.x02; Byte.x03; Byte.x04].

(** A one-byte bootstrap and a two-byte kernel. *)
Definition w_small : world :=
  boot_world (fs_of [Byte.x01] [Byte.x02; Byte.x03]) [].

(** No bootstrap and a kernel of 65536 bytes. *)
Definition kernel_64k : list byte := repeat Byte.x07 (Z.to_nat 65536).
Definition w_64k : world := boot_world (fs_of [] kernel_64k) [].

(** A four-byte bootstrap and a kernel of 600 bytes. *)
Definition w_two_sectors : world :=
  boot_world (fs_of payload_a (repeat Byte.x07 600)) [].

(** The write of the header fails. *)
Definition w_header_write_fails : world :=
  boot_world (fs_of [Byte.x01] [Byte.x02; Byte.x03]) [Fail].

(** The kernel file is missing; the bootstrap file is missing. *)
Definition w_no_kernel : world :=
  boot_world (<["boot.bin" := [Byte.x01]]> ∅) [].
Definition w_no_bootstrap : world :=
  boot_world (<["kernel.bin" := [Byte.x02]]> ∅) [].

(** A bootstrap of 200 bytes and a kernel of 276: with the header, one
    sector exactly. *)
Definition w_one_sector : world :=
  boot_world (fs_of (repeat Byte.x01 200) (repeat Byte.x02 276)) [].

(** ** Headers as C holds them *)

(** Every field holds a value of its C type. *)
Definition well_typed (h : image_header) : Prop :=
  0 <= hdr_size h < 2 ^ 16 ∧ 0 <= sector_count h < 2 ^ 16 ∧
  - 2 ^ 63 <= bootstrap_off h < 2 ^ 63 ∧ 0 <= bootstrap_size h < 2 ^ 64 ∧
  - 2 ^ 63 <= kernel_off h < 2 ^ 63 ∧ 0 <= kernel_size h < 2 ^ 64.

(** ** Which files a run may change *)

(** The file each open descriptor refers to. *)
Definition fd_paths (w : world) : gmap Z string := fe_path <$> w_fds w.

(** The two worlds hold the same files, but for [p]. *)
Definition same_files_but (p : string) (w w' : world) : Prop :=
  ∀ q, q ≠ p -> w_fs w' !! q = w_fs w !! q.

(** From [w] to [w'] no descriptor changed its file, and no file changed
    but the one [fd] refers to. *)
Definition touches_only (fd : Z) (w w' : world) : Prop :=
  fd_paths w' = fd_paths w ∧
  ∀ p, fd_paths w !! fd = Some p -> same_files_but p w w'.

(** ** Sources that are also the output *)

(** What [generate] finds in a source file when it measures it: the
    three files are opened first, the output with [O_TRUNC], so a source
    that is also the output file is empty by then. *)
Definition measured (cfg : params) (path : string) (c : list byte)
  : list byte :=
  if decide (path = output_file cfg) then [] else c.

(** The image is written onto the kernel file. *)
Definition cfg_onto_kernel : params :=
  Params "kernel.bin" "boot.bin" "kernel.bin".

(** * The command line

    [main] with [help], [version] and the [getopt] of the C library.
    What [main] itself prints goes to a console of its own, a list of
    lines; [strdup] is taken to succeed. *)

Definition console : Type := list string.

Definition UNISTRAP_VERSION : string := "0.0.1".

Definition help (out : console) : console :=
  out ++ [ "unistrap - mbr kernel imager";
           "----------------------------";
           "[-h]   Display this help menu";
           "[-v]   Display unistrap version";
           "[-o]   Image output path";
           "[-b]   Bootstrap image path";
           "[-k]   Kernel image path" ].

Definition version (out : console) : console :=
  out ++ [ "-------------------------------";
           "Copyright (c) 2026, Ian Moffett";
           "Unistrap v" +:+ UNISTRAP_VERSION;
           "-------------------------------" ].

(** ** [getopt]

    What is left to scan: the letters of the current word after the one
    returned last, and the words after it.  [main] never reads [optind],
    so the position is not kept. *)
Record getopt_state : Type := GetoptState {
  go_cluster : string;
  go_args : list string;
}.

(** How an option string declares a letter: [Some true] with an
    argument, [Some false] without, [None] not at all.  A colon is never
    an option. *)
Fixpoint takes_arg (optstring : string) (c : ascii) : option bool :=
  match optstring with
  | EmptyString => None
  | String d s =>
      if Ascii.eqb c d
      then Some (match s with String ":" _ => true | _ => false end)
      else takes_arg s c
  end.

Definition declared (optstring : string) (c : ascii) : option bool :=
  if Ascii.eqb c ":" then None else takes_arg optstring c.

(** The [int] a character is returned as. *)
Definition char_code (c : ascii) : Z := Z.of_N (N_of_ascii c).

(** The results that come with an [optarg] in [main]. *)
Definition path_result (opt : Z) : Prop :=
  opt = char_code "o" ∨ opt = char_code "b" ∨ opt = char_code "k".

(** The answer of one call: the result, [optarg], the state after it,
    and what was printed on the error stream ([opterr] is left at 1). *)
Definition getopt_answer : Type :=
  Z * option string * getopt_state * list string.

(** The letter [c] has been read, [cl] is the rest of its word. *)
Definition getopt_letter (optstring : string) (c : ascii) (cl : string)
    (args : list string) : getopt_answer :=
  match declared optstring c with
  | None =>
      (char_code "?", None, GetoptState cl args, ["getopt: invalid option"])
  | Some false => (char_code c, None, GetoptState cl args, [])
  | Some true =>
      match cl, args with
      | String _ _, _ => (char_code c, Some cl, GetoptState "" args, [])
      | EmptyString, a :: args' =>
          (char_code c, Some a, GetoptState "" args', [])
      | EmptyString, [] =>
          (char_code "?", None, GetoptState "" [],
           ["getopt: option requires an argument"])
      end
  end.

(** A word that holds options: a dash and at least one more character.
    The result is the first letter and the letters after it. *)
Definition option_word (a : string) : option (ascii * string) :=
  match a with
  | String d (String c cl) => if Ascii.eqb d "-" then Some (c, cl) else None
  | _ => None
  end.

(** The next word that holds options, with the words after it.  The
    word [--] ends the options.  A word that holds none ends them too as
    POSIX has it; GNU's [getopt] passes over it ([permute]). *)
Fixpoint next_word (permute : bool) (args : list string)
  : option (ascii * string * list string) :=
  match args with
  | [] => None
  | a :: args' =>
      if String.eqb a "--" then None
      else match option_word a with
           | Some (c, cl) => Some (c, cl, args')
           | None => if permute then next_word permute args' else None
           end
  end.

Definition getopt (permute : bool) (optstring : string) (go : getopt_state)
  : getopt_answer :=
  match go_cluster go with
  | String c cl => getopt_letter optstring c cl (go_args go)
  | EmptyString =>
      match next_word permute (go_args go) with
      | Some (c, cl, args') => getopt_letter optstring c cl args'
      | None => (-1, None, go, [])
      end
  end.

(** ** [main] *)

(** The three globals; the paths of the sources start as [NULL]. *)
Record globals : Type := Globals {
  g_output_file : string;
  g_bootstrap_path : option string;
  g_kernel_path : option string;
}.

Definition globals0 : globals := Globals "kernel.img" None None.

Definition OPTSTRING : string := "hvo:b:k:".

(** How the option loop ends: a [return] from inside it, with what was
    printed, or the end of the options. *)
Inductive loop_end : Type :=
| Returned (r : Z) (out : console)
| Parsed (g : globals).

Definition log_errs (msgs : list string) (w : world) : world :=
  fold_left (fun w m => log_err m w) msgs w.

(** The [while] loop around [getopt].  Each call consumes a letter or a
    word, so the loop is run on a count of them ([scan_bound]); [None] is
    [strdup] of a null [optarg], or the count used up. *)
Fixpoint option_loop (n : nat) (permute : bool) (go : getopt_state)
    (g : globals) (w : world) : option (loop_end * world) :=
  match n with
  | O => None
  | S n' =>
      let '(opt, optarg, go', msgs) := getopt permute OPTSTRING go in
      let w := log_errs msgs w in
      if opt =? -1 then Some (Parsed g, w)
      else if opt =? char_code "h" then Some (Returned (-1) (help []), w)
      else if opt =? char_code "v" then Some (Returned (-1) (version []), w)
      else if opt =? char_code "o" then
        match optarg with
        | Some s =>
            option_loop n' permute go'
              (Globals s (g_bootstrap_path g) (g_kernel_path g)) w
        | None => None
        end
      else if opt =? char_code "b" then
        match optarg with
        | Some s =>
            option_loop n' permute go'
              (Globals (g_output_file g) (Some s) (g_kernel_path g)) w
        | None => None
        end
      else if opt =? char_code "k" then
        match optarg with
        | Some s =>
            option_loop n' permute go'
              (Globals (g_output_file g) (g_bootstrap_path g) (Some s)) w
        | None => None
        end
      else option_loop n' permute go' g w
  end.

(** An upper bound on the calls of [getopt] that return an option: one
    for each letter and each word left. *)
Definition scan_size (go : getopt_state) : nat :=
  String.length (go_cluster go)
  + list_sum (map (fun a => S (String.length a)) (go_args go)).

Definition main (permute : bool) (argv : list string) (fr : frame)
  : world -> option (Z * console * world) := fun w =>
  let argc := Z.of_nat (length argv) in
  if argc <? 2 then
    Some (-1, help ["fatal: too few arguments"], w)
  else
    let go := GetoptState "" (tail argv) in
    match option_loop (S (scan_size go)) permute go globals0 w with
    | None => None
    | Some (Returned r out, w) => Some (r, out, w)
    | Some (Parsed g, w) =>
        match g_bootstrap_path g with
        | None => Some (-1, help ["fatal: expected bootstrap path"], w)
        | Some bs =>
            match g_kernel_path g with
            | None => Some (-1, help ["fatal: expected kernel path"], w)
            | Some k =>
                match generate (Params (g_output_file g) bs k) fr w with
                | Some (r, w) => Some (r, [], w)
                | None => None
                end
            end
        end
    end.

(** ** Command lines *)

(** The three options that take a path. *)
Inductive path_option : Type := OptOutput | OptBootstrap | OptKernel.

Definition letter (o : path_option) : ascii :=
  match o with
  | OptOutput => "o" | OptBootstrap => "b" | OptKernel => "k"
  end%char.

(** One setting on the command line: the option, its path, and whether
    the path is in the same word ([-bPATH]) or the next ([-b PATH]). *)
Record setting : Type := Setting {
  st_option : path_option;
  st_attached : bool;
  st_path : string;
}.

Definition words (s : setting) : list string :=
  if st_attached s
  then [String "-" (String (letter (st_option s)) (st_path s))]
  else [String "-" (String (letter (st_option s)) ""); st_path s].

(** A path in the same word as its option cannot be empty. *)
Definition well_formed (s : setting) : Prop :=
  st_attached s = true -> st_path s ≠ "".

Definition assign (g : globals) (s : setting) : globals :=
  match st_option s with
  | OptOutput => Globals (st_path s) (g_bootstrap_path g) (g_kernel_path g)
  | OptBootstrap => Globals (g_output_file g) (Some (st_path s)) (g_kernel_path g)
  | OptKernel => Globals (g_output_file g) (g_bootstrap_path g) (Some (st_path s))
  end.

Definition command_line (l : list setting) : list string :=
  flat_map words l.

(** A word that is no option: it has no leading dash, or is a dash
    alone. *)
Definition operand (a : string) : Prop := option_word a = None.

(** No system call is made and nothing is printed by [generate] from [w]
    to [w']: only diagnostics of [getopt] may have been added. *)
Definition untouched (w w' : world) : Prop :=
  w_fs w' = w_fs w ∧ w_locked w' = w_locked w ∧ w_fds w' = w_fds w ∧
  w_maps w' = w_maps w ∧ w_script w' = w_script w ∧
  w_trace w' = w_trace w ∧ w_stdout w' = w_stdout w.

(** Sample command lines. *)
Definition settings0 : list setting :=
  [ Setting OptBootstrap false "boot.bin";
    Setting OptKernel true "kernel.bin" ].

(** * Lemmas *)

(** ** The integer types *)

Section CIntFacts.

Lemma u16_range x : 0 <= u16 x < 2 ^ 16.
Proof. unfold u16. apply Z.mod_pos_bound. lia. Qed.

Lemma usize_range x : 0 <= usize x < 2 ^ 64.
Proof. unfold usize. apply Z.mod_pos_bound. lia. Qed.

Lemma u16_small x : 0 <= x < 2 ^ 16 -> u16 x = x.
Proof. intros. unfold u16. apply Z.mod_small. lia. Qed.

Lemma usize_small x : 0 <= x < 2 ^ 64 -> usize x = x.
Proof. intros. unfold usize. apply Z.mod_small. lia. Qed.

Lemma int_small x : - 2 ^ 31 <= x < 2 ^ 31 -> int x = x.
Proof. intros. unfold int. rewrite Z.mod_small; lia. Qed.

Lemma off_small x : - 2 ^ 63 <= x < 2 ^ 63 -> off x = x.
Proof. intros. unfold off. rewrite Z.mod_small; lia. Qed.

End CIntFacts.

(** ** Arithmetic of the alignment macro *)

Section Align.

Lemma land_lnot_511 x : Z.land x (Z.lnot 511) = 512 * (x / 512).
Proof.
  rewrite <- Z.ldiff_land.
  change 511 with (Z.ones 9).
  rewrite Z.ldiff_ones_r by lia.
  rewrite Z.shiftr_div_pow2, Z.shiftl_mul_pow2 by lia.
  change (2 ^ 9) with 512. lia.
Qed.

Lemma land_usize_mask x :
  0 <= x < 2 ^ 64 -> Z.land x (usize (Z.lnot 511)) = Z.land x (Z.lnot 511).
Proof.
  intros Hx. unfold usize.
  rewrite <- (Z.land_ones (Z.lnot 511) 64) by lia.
  rewrite (Z.land_comm (Z.lnot 511)), Z.land_assoc.
  rewrite (Z.land_ones x 64) by lia.
  rewrite Z.mod_small by lia. reflexivity.
Qed.

(** On [size_t] the macro rounds down [value + 511] modulo [2^64]. *)
Lemma ALIGN_UP_usize v :
  0 <= v < 2 ^ 64 ->
  ALIGN_UP usize v SECTOR_SIZE = 512 * (usize (v + 511) / 512).
Proof.
  intros Hv. unfold ALIGN_UP, SECTOR_SIZE.
  change (512 - 1) with 511.
  assert (E : usize (usize (v + 512) - 1) = usize (v + 511)).
  { unfold usize. rewrite Zminus_mod_idemp_l. f_equal. lia. }
  rewrite E, land_usize_mask by apply usize_range.
  apply land_lnot_511.
Qed.

(** Without wrap-around this is the next multiple of 512. *)
Lemma ALIGN_UP_usize_small v :
  0 <= v -> v + 511 < 2 ^ 64 ->
  ALIGN_UP usize v SECTOR_SIZE = 512 * ((v + 511) / 512).
Proof.
  intros H0 H1. rewrite ALIGN_UP_usize by lia.
  rewrite usize_small by lia. reflexivity.
Qed.

(** On a promoted [uint16_t] the addition is exact in [int]. *)
Lemma ALIGN_UP_int v :
  0 <= v < 2 ^ 16 ->
  ALIGN_UP int v SECTOR_SIZE = 512 * ((v + 511) / 512).
Proof.
  intros Hv. unfold ALIGN_UP, SECTOR_SIZE.
  change (512 - 1) with 511.
  rewrite (int_small (v + 512)) by lia.
  rewrite (int_small (v + 512 - 1)) by lia.
  rewrite (int_small (Z.lnot 511)) by (change (Z.lnot 511) with (-512); lia).
  rewrite land_lnot_511. f_equal. f_equal. lia.
Qed.

(** The fill count is the distance to the next multiple of 512, for
    every 64-bit total, wrapped or not. *)
Lemma pad_size_mod t :
  0 <= t < 2 ^ 64 -> pad_size t = (- t) mod 512.
Proof.
  intros Ht. unfold pad_size. rewrite ALIGN_UP_usize by lia.
  unfold usize.
  set (a := (t + 511) mod 2 ^ 64).
  assert (Ha : 0 <= a < 2 ^ 64) by (apply Z.mod_pos_bound; lia).
  assert (Ea : a mod 512 = (t + 511) mod 512).
  { unfold a. apply Z.mod_mod_divide. exists (2 ^ 55). reflexivity. }
  pose proof (Z.mod_pos_bound (t + 511) 512 ltac:(lia)) as Hb.
  pose proof (Z.div_mod a 512 ltac:(lia)) as Da.
  assert (Em : (512 * (a / 512) - t) mod 2 ^ 64
               = (511 - (t + 511) mod 512) mod 2 ^ 64).
  { replace (512 * (a / 512) - t) with (a + (- (a mod 512) - t)) by lia.
    unfold a at 1. rewrite Zplus_mod_idemp_l, Ea. f_equal. lia. }
  rewrite Em, Z.mod_small by lia.
  apply Z.mod_unique with (q := - ((t + 511) / 512)); [lia|].
  pose proof (Z.div_mod (t + 511) 512 ltac:(lia)). lia.
Qed.

Lemma pad_size_range t : 0 <= t < 2 ^ 64 -> 0 <= pad_size t < 512.
Proof.
  intros Ht. rewrite pad_size_mod by assumption.
  apply Z.mod_pos_bound. lia.
Qed.

Lemma total_size_small k b :
  0 <= k -> 0 <= b -> 36 + b + k < 2 ^ 64 -> total_size k b = 36 + b + k.
Proof.
  intros. unfold total_size, sizeof_hdr.
  rewrite (usize_small (k + b)) by lia.
  rewrite usize_small by lia. lia.
Qed.

End Align.

(** ** Allocation of descriptors and pages *)

Section Alloc.
Context {A : Type}.
Implicit Types m : gmap Z A.

Lemma first_free_spec m fuel n :
  m !! first_free m fuel n = None ∨
  (first_free m fuel n = n + Z.of_nat fuel ∧
   ∀ i, n <= i < n + Z.of_nat fuel → is_Some (m !! i)).
Proof.
  revert n. induction fuel as [|fuel IH]; intros n; simpl.
  - right. split; [lia | intros i Hi; lia].
  - destruct (m !! n) eqn:E; [|by left].
    destruct (IH (n + 1)) as [H | [H1 H2]]; [by left | right].
    split; [lia|]. intros i Hi.
    destruct (decide (i = n)) as [-> | Hne]; [by rewrite E|].
    apply H2. lia.
Qed.

Lemma first_free_ge m fuel n : n <= first_free m fuel n.
Proof.
  revert n. induction fuel as [|fuel IH]; intros n; simpl; [lia|].
  destruct (m !! n); [|lia]. specialize (IH (n + 1)). lia.
Qed.

(** With as much fuel as the table has entries the search cannot run
    out: were the [size m] keys from [n] all taken, they would be the
    whole domain, and the next one is free. *)
Lemma lowest_free_fresh m n : m !! lowest_free m n = None.
Proof.
  unfold lowest_free.
  destruct (first_free_spec m (size m) n) as [H | [H1 H2]]; [done|].
  rewrite H1. apply not_elem_of_dom.
  assert (E : list_to_set (seqZ n (Z.of_nat (size m))) = dom m).
  { apply set_subseteq_size_eq.
    - intros i Hi. apply elem_of_list_to_set, elem_of_seqZ in Hi.
      apply elem_of_dom, H2. lia.
    - rewrite size_list_to_set by apply NoDup_seqZ.
      rewrite length_seqZ, size_dom. lia. }
  rewrite <- E, elem_of_list_to_set, elem_of_seqZ. lia.
Qed.

Lemma lowest_free_ge m n : n <= lowest_free m n.
Proof. apply first_free_ge. Qed.

Lemma lowest_free_notin m n : lowest_free m n ∉ dom m.
Proof. apply not_elem_of_dom, lowest_free_fresh. Qed.

End Alloc.

(** ** Running the monad *)

Lemma bind_some {A B} (m : M A) (k : A -> M B) w a w' :
  m w = Some (a, w') -> bind m k w = k a w'.
Proof. intros E. unfold bind. by rewrite E. Qed.

Lemma bind_assoc {A B C} (m : M A) (f : A -> M B) (g : B -> M C) w :
  bind (bind m f) g w = bind m (fun a => bind (f a) g) w.
Proof. unfold bind. by destruct (m w) as [[a w']|]. Qed.

(** ** The footprint of a step *)

Lemma release_fresh (x : Z) (X : gset Z) : x ∉ X -> ({[x]} ∪ X) ∖ {[x]} = X.
Proof.
  intros H. apply set_eq. intros y.
  rewrite elem_of_difference, elem_of_union, elem_of_singleton.
  split; [intros [[->|?] ?]; done|].
  intros Hy. split; [by right | intros ->; done].
Qed.

Lemma keeps_refl w : keeps w w.
Proof. by repeat split. Qed.

Lemma keeps_trans w1 w2 w3 : keeps w1 w2 -> keeps w2 w3 -> keeps w1 w3.
Proof. intros (A1 & B1 & C1) (A2 & B2 & C2). repeat split; congruence. Qed.

(** ** The system calls, whatever the kernel answers *)

Section Syscalls.

Lemma openable_rdonly w p :
  openable w p O_RDONLY = bool_decide (is_Some (w_fs w !! p)).
Proof.
  unfold openable. change (Z.testbit O_RDONLY 6) with false.
  change (Z.testbit O_RDONLY 0) with false. simpl.
  rewrite orb_false_r, andb_true_r. apply negb_involutive.
Qed.

Lemma openable_create w p :
  openable w p CREATE_FLAGS = bool_decide (p ∉ w_locked w).
Proof.
  unfold openable. change (Z.testbit CREATE_FLAGS 6) with true.
  change (Z.testbit CREATE_FLAGS 0) with true. simpl.
  rewrite andb_false_r. simpl. by rewrite bool_decide_not.
Qed.

Lemma sys_open_fail w p fl :
  openable w p fl = false ->
  sys_open p fl w = Some (-1, log (EvOpen p fl (-1)) w).
Proof.
  unfold openable, sys_open. intros H%negb_false_iff. by rewrite H.
Qed.

Lemma sys_open_rdonly w p c :
  w_fs w !! p = Some c ->
  sys_open p O_RDONLY w =
    Some (lowest_free (w_fds w) 0,
          log (EvOpen p O_RDONLY (lowest_free (w_fds w) 0))
            (with_fds (<[lowest_free (w_fds w) 0 := FdEntry p 0 false]>
                         (w_fds w)) w)).
Proof.
  intros H. unfold sys_open.
  change (Z.testbit O_RDONLY 6) with false.
  change (Z.testbit O_RDONLY 0) with false.
  change (Z.testbit O_RDONLY 9) with false.
  rewrite bool_decide_eq_true_2 by (rewrite H; eauto).
  simpl. by destruct w.
Qed.

Lemma sys_open_create w p :
  p ∉ w_locked w ->
  sys_open p CREATE_FLAGS w =
    Some (lowest_free (w_fds w) 0,
          log (EvOpen p CREATE_FLAGS (lowest_free (w_fds w) 0))
            (with_fds (<[lowest_free (w_fds w) 0 := FdEntry p 0 true]>
                         (w_fds w))
               (with_fs (<[p := []]> (w_fs w)) w))).
Proof.
  intros H. unfold sys_open.
  change (Z.testbit CREATE_FLAGS 6) with true.
  change (Z.testbit CREATE_FLAGS 0) with true.
  change (Z.testbit CREATE_FLAGS 9) with true.
  rewrite (bool_decide_eq_false_2 (p ∈ w_locked w)) by done.
  simpl. rewrite andb_false_r, orb_true_r. done.
Qed.

(** A successful [open] adds exactly one descriptor, the lowest free
    one; it leaves the lock set and the mappings alone. *)
Lemma sys_open_ok w p fl :
  openable w p fl = true ->
  ∃ w', sys_open p fl w = Some (lowest_free (w_fds w) 0, w') ∧
        open_fds w' = {[lowest_free (w_fds w) 0]} ∪ open_fds w ∧
        mapped_pages w' = mapped_pages w ∧
        w_stderr w' = w_stderr w ∧
        w_locked w' = w_locked w ∧
        (fl = O_RDONLY -> w_fs w' = w_fs w).
Proof.
  unfold openable, sys_open. intros H%negb_true_iff. rewrite H.
  eexists. split; [reflexivity|]. unfold open_fds, mapped_pages. simpl.
  rewrite dom_insert_L. repeat split; try done.
  intros ->. change (Z.testbit O_RDONLY 9) with false.
  change (Z.testbit O_RDONLY 6) with false in H.
  rewrite andb_true_r in H. apply orb_false_iff in H as [H _].
  by rewrite H.
Qed.

Lemma sys_close_res fd w :
  ∃ r w', sys_close fd w = Some (r, w') ∧
          open_fds w' = open_fds w ∖ {[fd]} ∧
          mapped_pages w' = mapped_pages w ∧
          w_stderr w' = w_stderr w.
Proof.
  unfold sys_close. eexists _, _. split; [reflexivity|].
  unfold open_fds, mapped_pages. simpl. by rewrite dom_delete_L.
Qed.

Lemma sys_lseek_res fd o wh w :
  ∃ r w', sys_lseek fd o wh w = Some (r, w') ∧ keeps w w'.
Proof.
  unfold sys_lseek, keeps, open_fds, mapped_pages.
  destruct (w_fds w !! fd) as [e|] eqn:E.
  - destruct (_ <? 0); eexists _, _; (split; [reflexivity|]); simpl;
      [done|]. split; [|done]. apply dom_insert_lookup_L. eauto.
  - eexists _, _. split; [reflexivity|]. done.
Qed.

Lemma next_outcome_keeps w :
  keeps w (next_outcome w).2 ∧
  w_fds (next_outcome w).2 = w_fds w ∧
  w_maps (next_outcome w).2 = w_maps w ∧
  w_fs (next_outcome w).2 = w_fs w.
Proof. unfold next_outcome. destruct (w_script w); simpl; by repeat split. Qed.

Lemma sys_write_res fd buf n w :
  ∃ r w', sys_write fd buf n w = Some (r, w') ∧ keeps w w'.
Proof.
  unfold sys_write.
  destruct (next_outcome_keeps w) as (K & _).
  destruct (next_outcome w) as [o w1]. simpl in K.
  destruct (w_fds w1 !! fd) as [e|] eqn:E.
  - destruct buf as [b|].
    + destruct o.
      * destruct (fe_write e); eexists _, _; (split; [reflexivity|]);
          [|done].
        eapply keeps_trans; [exact K|]. split; [|done].
        apply dom_insert_lookup_L. eauto.
      * destruct (fe_write e); eexists _, _; (split; [reflexivity|]);
          [|done].
        eapply keeps_trans; [exact K|]. split; [|done].
        apply dom_insert_lookup_L. eauto.
      * eexists _, _. split; [reflexivity|]. done.
    + eexists _, _. split; [reflexivity|]. done.
  - destruct buf, o; eexists _, _; (split; [reflexivity|]); done.
Qed.

Lemma sys_write_ptr_res fd addr n w :
  ∃ r w', sys_write_ptr fd addr n w = Some (r, w') ∧ keeps w w'.
Proof. apply sys_write_res. Qed.

Lemma MAP_FAILED_unaligned : (MAP_FAILED mod PAGE_SIZE =? 0) = false.
Proof. reflexivity. Qed.

Lemma sys_mmap_res len fd w :
  ∃ r w', sys_mmap len fd w = Some (r, w') ∧ mmap_post len w r w'.
Proof.
  unfold sys_mmap.
  destruct (next_outcome_keeps w) as ((Kf & Km & Ks) & _).
  destruct (next_outcome w) as [o w1]. simpl in Kf, Km, Ks.
  assert (Hfail : ∃ r w',
            Some (MAP_FAILED, log (EvMmap fd len MAP_FAILED) w1)
            = Some (r, w') ∧ mmap_post len w r w').
  { eexists _, _. split; [reflexivity|]. repeat split; try done.
    by left. }
  assert (Hok : ∀ e, (0 <? len) && negb (fe_write e) = true ->
            ∃ r w',
              Some (lowest_free (w_maps w1) 1 * PAGE_SIZE,
                    log (EvMmap fd len (lowest_free (w_maps w1) 1 * PAGE_SIZE))
                      (with_maps
                         (<[lowest_free (w_maps w1) 1 :=
                              take (Z.to_nat len)
                                (default [] (w_fs w1 !! fe_path e))]>
                            (w_maps w1)) w1))
              = Some (r, w') ∧ mmap_post len w r w').
  { intros e [Hlen _]%andb_true_iff. apply Z.ltb_lt in Hlen.
    eexists _, _. split; [reflexivity|].
    pose proof (lowest_free_ge (w_maps w1) 1) as Hge.
    pose proof (lowest_free_notin (w_maps w1) 1) as Hfr.
    set (page := lowest_free (w_maps w1) 1) in *.
    assert (Ediv : page * PAGE_SIZE / PAGE_SIZE = page)
      by (apply Z.div_mul; done).
    split; [unfold NULL, PAGE_SIZE; lia|]. split; [done|].
    split; [done|]. right.
    rewrite Ediv. split; [done|]. split; [apply Z.mod_mul; done|].
    unfold mapped_pages in *. simpl. rewrite dom_insert_L, <- Km.
    by split. }
  destruct (w_fds w1 !! fd) as [e|]; [|done].
  destruct o; try done;
    (destruct ((0 <? len) && negb (fe_write e)) eqn:Eok; [by apply Hok | done]).
Qed.

Lemma sys_munmap_res addr len w :
  ∃ r w', sys_munmap addr len w = Some (r, w') ∧
          open_fds w' = open_fds w ∧
          w_stderr w' = w_stderr w ∧
          mapped_pages w' =
            (if (0 <? len) && (addr mod PAGE_SIZE =? 0)
             then mapped_pages w ∖ {[addr / PAGE_SIZE]}
             else mapped_pages w).
Proof.
  unfold sys_munmap, open_fds, mapped_pages.
  destruct ((0 <? len) && (addr mod PAGE_SIZE =? 0));
    eexists _, _; (split; [reflexivity|]); simpl; [|done].
  by rewrite dom_delete_L.
Qed.

(** [output_append] never reports failure and gives back the mapping
    it takes, whatever the kernel answers. *)
Lemma output_append_res out_fd in_fd sz w :
  ∃ w', output_append out_fd in_fd sz w = Some (0, w') ∧ keeps w w'.
Proof.
  unfold output_append.
  destruct (sys_mmap_res sz in_fd w)
    as (data & w1 & E1 & Hnull & Kf1 & Ks1 & Hm).
  rewrite (bind_some _ _ _ _ _ E1).
  destruct (Z.eqb_spec data NULL) as [|_]; [done|].
  destruct (sys_write_ptr_res out_fd data sz w1)
    as (r2 & w2 & E2 & Kf2 & Km2 & Ks2).
  rewrite (bind_some _ _ _ _ _ E2).
  destruct (sys_munmap_res data sz w2) as (r3 & w3 & E3 & Kf3 & Ks3 & Km3).
  rewrite (bind_some _ _ _ _ _ E3).
  eexists. split; [reflexivity|]. split; [congruence|].
  split; [|congruence].
  rewrite Km3, Km2.
  destruct Hm as [[-> Hm] | (Hlen & Hal & Hfr & Hm)].
  - rewrite MAP_FAILED_unaligned, andb_false_r. done.
  - apply Z.ltb_lt in Hlen. apply Z.eqb_eq in Hal.
    rewrite Hlen, Hal, Hm. simpl. by apply release_fresh.
Qed.

End Syscalls.

(** ** Every run of [generate] *)

Lemma open_fds_log e w : open_fds (log e w) = open_fds w.
Proof. reflexivity. Qed.
Lemma open_fds_log_err e w : open_fds (log_err e w) = open_fds w.
Proof. reflexivity. Qed.
Lemma open_fds_log_out e w : open_fds (log_out e w) = open_fds w.
Proof. reflexivity. Qed.
Lemma mapped_pages_log e w : mapped_pages (log e w) = mapped_pages w.
Proof. reflexivity. Qed.
Lemma mapped_pages_log_err e w : mapped_pages (log_err e w) = mapped_pages w.
Proof. reflexivity. Qed.
Lemma mapped_pages_log_out e w : mapped_pages (log_out e w) = mapped_pages w.
Proof. reflexivity. Qed.

Create Rewrite HintDb footprint.
#[local] Hint Rewrite open_fds_log open_fds_log_err open_fds_log_out
  mapped_pages_log mapped_pages_log_err mapped_pages_log_out : footprint.

Lemma difference_swap (X : gset Z) (a b : Z) : X ∖ {[a]} ∖ {[b]} = X ∖ {[b]} ∖ {[a]}.
Proof. apply set_eq. intros x. rewrite !elem_of_difference. tauto. Qed.

Ltac run_keeps :=
  lazymatch goal with
  | |- context [bind (sys_lseek ?a ?b ?c) _ ?w] =>
      let r := fresh "r" in let w' := fresh "w" in
      let E := fresh "E" in let K := fresh "K" in
      destruct (sys_lseek_res a b c w) as (r & w' & E & K);
      rewrite (bind_some _ _ _ _ _ E); cbv beta; clear E
  | |- context [bind (sys_write ?a ?b ?c) _ ?w] =>
      let r := fresh "r" in let w' := fresh "w" in
      let E := fresh "E" in let K := fresh "K" in
      destruct (sys_write_res a b c w) as (r & w' & E & K);
      rewrite (bind_some _ _ _ _ _ E); cbv beta; clear E
  | |- context [bind (output_append ?a ?b ?c) _ ?w] =>
      let w' := fresh "w" in
      let E := fresh "E" in let K := fresh "K" in
      destruct (output_append_res a b c w) as (w' & E & K);
      rewrite (bind_some _ _ _ _ _ E); cbv beta; clear E
  end.

Ltac run_close :=
  lazymatch goal with
  | |- context [bind (sys_close ?a) _ ?w] =>
      let r := fresh "r" in let w' := fresh "w" in
      let E := fresh "E" in let F := fresh "F" in let Mp := fresh "Mp" in
      let Sp := fresh "Sp" in
      destruct (sys_close_res a w) as (r & w' & E & F & Mp & Sp);
      rewrite (bind_some _ _ _ _ _ E); cbv beta; clear E
  end.

Lemma memset_pad (pad : list byte) (c n : Z) :
  length pad = 512%nat -> 0 <= n < 512 ->
  ∃ pad', memset pad c n = Some pad' ∧
          array_prefix pad' n = Some (repeat (byte.of_Z c) (Z.to_nat n)).
Proof.
  intros Hlen Hn. unfold memset, array_prefix.
  assert (Hle : (Z.to_nat n <= length pad)%nat) by lia.
  rewrite (proj2 (Nat.leb_le _ _) Hle).
  eexists. split; [reflexivity|].
  rewrite length_app, repeat_length, length_drop.
  rewrite (proj2 (Nat.leb_le _ _)) by lia.
  rewrite take_app_length' by (by rewrite repeat_length). done.
Qed.

Lemma stderr_log e w : w_stderr (log e w) = w_stderr w.
Proof. reflexivity. Qed.
Lemma stderr_log_out e w : w_stderr (log_out e w) = w_stderr w.
Proof. reflexivity. Qed.

#[local] Hint Rewrite stderr_log stderr_log_out : footprint.

(** Whatever the files and whatever the kernel answers, [generate] runs
    to its end within the bounds of its arrays, holds afterwards exactly
    the descriptors and mappings it held before, and returns 0 when its
    three calls to [open] succeed and -1 otherwise; in the first case it
    prints nothing on the error stream. *)
Lemma generate_total cfg fr w :
  length (fr_pad fr) = 512%nat ->
  ∃ r w', generate cfg fr w = Some (r, w') ∧
          open_fds w' = open_fds w ∧ mapped_pages w' = mapped_pages w ∧
          r = (if opens_ok cfg w then 0 else -1) ∧
          (opens_ok cfg w = true -> w_stderr w' = w_stderr w).
Proof.
  intros Hpad. unfold generate, opens_ok.
  (* open the bootstrap *)
  pose proof (openable_rdonly w (bootstrap_path cfg)) as B1.
  destruct (openable w (bootstrap_path cfg) O_RDONLY) eqn:O1.
  2: { rewrite (bind_some _ _ _ _ _ (sys_open_fail _ _ _ O1)); cbv beta.
       rewrite <- B1. eexists _, _. split; [reflexivity|]. by repeat split. }
  destruct (sys_open_ok _ _ _ O1) as (w1 & E1 & F1 & M1 & T1 & L1 & S1).
  rewrite (bind_some _ _ _ _ _ E1); cbv beta. clear E1. specialize (S1 eq_refl).
  pose proof (lowest_free_ge (w_fds w) 0) as G1.
  pose proof (lowest_free_notin (w_fds w) 0) as N1.
  set (bs_fd := lowest_free (w_fds w) 0) in *.
  destruct (Z.ltb_spec bs_fd 0) as [|_]; [lia|].
  rewrite <- B1. simpl.
  (* open the kernel *)
  pose proof (openable_rdonly w1 (kernel_path cfg)) as B2.
  rewrite S1 in B2. rewrite <- B2.
  destruct (openable w1 (kernel_path cfg) O_RDONLY) eqn:O2.
  2: { rewrite (bind_some _ _ _ _ _ (sys_open_fail _ _ _ O2)); cbv beta.
       change (-1 <? 0) with true. cbv iota. run_close.
       eexists _, _. split; [reflexivity|].
       autorewrite with footprint in *.
       split; [|split; [congruence | by split]].
       rewrite F, F1. by apply release_fresh. }
  destruct (sys_open_ok _ _ _ O2) as (w2 & E2 & F2 & M2 & T2 & L2 & S2).
  rewrite (bind_some _ _ _ _ _ E2); cbv beta. clear E2.
  pose proof (lowest_free_ge (w_fds w1) 0) as G2.
  pose proof (lowest_free_notin (w_fds w1) 0) as N2.
  set (k_fd := lowest_free (w_fds w1) 0) in *.
  destruct (Z.ltb_spec k_fd 0) as [|_]; [lia|]. simpl.
  (* create the output *)
  pose proof (openable_create w2 (output_file cfg)) as B3.
  rewrite L2, L1 in B3. rewrite <- B3.
  change (Z.lor (Z.lor O_WRONLY O_CREAT) O_TRUNC) with CREATE_FLAGS.
  destruct (openable w2 (output_file cfg) CREATE_FLAGS) eqn:O3.
  2: { rewrite (bind_some _ _ _ _ _ (sys_open_fail _ _ _ O3)); cbv beta.
       change (-1 <? 0) with true. cbv iota.
       rewrite (bind_some (perror _) _ _ _ _ eq_refl); cbv beta.
       run_close. run_close.
       eexists _, _. split; [reflexivity|].
       autorewrite with footprint in *.
       split; [|split; [congruence | by split]].
       fold (open_fds w1) in N2. fold (open_fds w) in N1.
       rewrite F0, F, F2, difference_swap, release_fresh by done.
       rewrite F1. by apply release_fresh. }
  destruct (sys_open_ok _ _ _ O3) as (w3 & E3 & F3 & M3 & T3 & _ & _).
  rewrite (bind_some _ _ _ _ _ E3); cbv beta. clear E3.
  pose proof (lowest_free_ge (w_fds w2) 0) as G3.
  pose proof (lowest_free_notin (w_fds w2) 0) as N3.
  set (out_fd := lowest_free (w_fds w2) 0) in *.
  destruct (Z.ltb_spec out_fd 0) as [|_]; [lia|].
  (* measure, write the header, copy the payloads *)
  do 5 run_keeps. run_keeps. change (0 <? 0) with false. cbv iota.
  run_keeps. change (0 <? 0) with false. cbv iota.
  (* the fill bytes *)
  set (bs_sz := usize r) in *. set (k_sz := usize r1) in *.
  pose proof (pad_size_range (total_size k_sz bs_sz)
                (usize_range _)) as Hps.
  change (usize (ALIGN_UP usize (total_size k_sz bs_sz) SECTOR_SIZE
                 - total_size k_sz bs_sz))
    with (pad_size (total_size k_sz bs_sz)).
  set (pad_sz := pad_size (total_size k_sz bs_sz)) in *.
  assert (Hfill : ∀ wa, ∃ w', keeps wa w' ∧
            (if 0 <? pad_sz
             then pad <~ array_access (memset (fr_pad fr) 238 pad_sz) ;;
                  buf <~ array_access (array_prefix pad pad_sz) ;;
                  sys_write out_fd (Some buf) pad_sz ;;; ret ()
             else ret ()) wa = Some ((), w')).
  { intros wa. destruct (0 <? pad_sz).
    - destruct (memset_pad (fr_pad fr) 238 pad_sz Hpad Hps) as (p' & Em & Ep).
      rewrite Em. unfold array_access at 1, bind at 1.
      rewrite Ep. unfold array_access at 1, bind at 1.
      destruct (sys_write_res out_fd (Some (repeat (byte.of_Z 238) (Z.to_nat pad_sz)))
                  pad_sz wa) as (r' & w' & E & K').
      rewrite (bind_some _ _ _ _ _ E); cbv beta. by exists w'.
    - exists wa. split; [apply keeps_refl | done]. }
  lazymatch goal with
  | |- context [bind (if _ then _ else _) _ ?wa] =>
      destruct (Hfill wa) as (w11 & K11 & E11)
  end.
  rewrite (bind_some _ _ _ _ _ E11); cbv beta. clear E11.
  rewrite (bind_some (printf_wrote _ _) _ _ _ _ eq_refl); cbv beta.
  do 3 run_close.
  eexists _, _. split; [reflexivity|].
  assert (K' : keeps w3 w11)
    by (repeat (eapply keeps_trans; [eassumption|]); apply keeps_refl).
  destruct K' as (Kf & Km & Ks). autorewrite with footprint in *.
  split; [|split; [congruence | split; [done | intros _; congruence]]].
  fold (open_fds w2) in N3. fold (open_fds w1) in N2. fold (open_fds w) in N1.
  rewrite F4, F0, F, Kf, F3, release_fresh by done.
  rewrite F2, difference_swap, release_fresh by done.
  rewrite F1. by apply release_fresh.
Qed.

(** ** The system calls when nothing fails *)

(** Worlds built by nested updates are brought to constructor form
    innermost first, so that no update is copied before it is reduced. *)
Ltac norm_world :=
  cbv beta iota delta
    [log log_err log_out with_script with_fds with_fs with_maps
     w_fs w_locked w_fds w_maps w_script w_trace w_stderr w_stdout].

Section Steps.

Lemma next_outcome_faultless w :
  faultless w ->
  next_outcome w = (Done, with_script (tail (w_script w)) w) ∧
  faultless (with_script (tail (w_script w)) w).
Proof.
  unfold faultless, next_outcome. destruct w as [? ? ? ? s ? ? ?]. simpl.
  intros H. destruct s as [|o s]; [by split|].
  apply Forall_cons in H as [<- H]. by split.
Qed.

Lemma sys_lseek_end w fd e :
  w_fds w !! fd = Some e ->
  sys_lseek fd 0 SEEK_END w =
    Some (file_size w (fe_path e),
          log (EvLseek fd SEEK_END (file_size w (fe_path e)))
            (with_fds (<[fd := FdEntry (fe_path e) (file_size w (fe_path e))
                                 (fe_write e)]> (w_fds w)) w)).
Proof.
  intros H. unfold sys_lseek. rewrite H.
  change (SEEK_END =? SEEK_SET) with false.
  change (SEEK_END =? SEEK_CUR) with false. cbv iota.
  rewrite Z.add_0_r.
  destruct (Z.ltb_spec (file_size w (fe_path e)) 0) as [Hn|_]; [|done].
  unfold file_size in Hn. lia.
Qed.

Lemma sys_lseek_set w fd e :
  w_fds w !! fd = Some e ->
  sys_lseek fd 0 SEEK_SET w =
    Some (0, log (EvLseek fd SEEK_SET 0)
               (with_fds (<[fd := FdEntry (fe_path e) 0 (fe_write e)]>
                            (w_fds w)) w)).
Proof. intros H. unfold sys_lseek. by rewrite H. Qed.

Lemma pwrite_end (c d : list byte) : pwrite c (length c) d = c ++ d.
Proof.
  unfold pwrite. rewrite firstn_all, Nat.sub_diag. simpl.
  rewrite drop_ge by lia. by rewrite app_nil_r.
Qed.

(** A full write at the end of the file appends the buffer. *)
Lemma sys_write_append w fd p b c n :
  n = Z.of_nat (length b) ->
  faultless w ->
  w_fds w !! fd = Some (FdEntry p (Z.of_nat (length c)) true) ->
  w_fs w !! p = Some c ->
  sys_write fd (Some b) n w =
    Some (n,
          log (EvWrite fd b)
            (with_fds (<[fd := FdEntry p (Z.of_nat (length (c ++ b))) true]>
                         (w_fds w))
               (with_fs (<[p := c ++ b]> (w_fs w))
                  (with_script (tail (w_script w)) w)))).
Proof.
  intros -> Hf Hfd Hfs. unfold sys_write.
  destruct (next_outcome_faultless w Hf) as [-> _].
  cbn [w_fds w_fs with_script]. rewrite Hfd. cbn [fe_write fe_path fe_pos].
  rewrite Hfs. cbn [default]. rewrite !Nat2Z.id, firstn_all, pwrite_end.
  by rewrite length_app, Nat2Z.inj_add.
Qed.

(** Without faults [output_append] appends the whole source file to
    the output, through one mapping that is gone when it returns. *)
Lemma output_append_clean w out_fd in_fd p q c oc pos :
  faultless w ->
  w_fds w !! in_fd = Some (FdEntry p pos false) ->
  w_fds w !! out_fd = Some (FdEntry q (Z.of_nat (length oc)) true) ->
  w_fs w !! p = Some c ->
  w_fs w !! q = Some oc ->
  output_append out_fd in_fd (Z.of_nat (length c)) w =
    Some (0,
      World (<[q := oc ++ c]> (w_fs w)) (w_locked w)
        (<[out_fd := FdEntry q (Z.of_nat (length (oc ++ c))) true]>
           (w_fds w))
        (w_maps w)
        (tail (tail (w_script w)))
        (w_trace w ++
           [EvMmap in_fd (Z.of_nat (length c))
              (map_addr w (Z.of_nat (length c)));
            EvWrite out_fd c;
            EvMunmap (map_addr w (Z.of_nat (length c)))
              (Z.of_nat (length c))])
        (w_stderr w) (w_stdout w)).
Proof.
  intros Hf Hin Hout Hp Hq. unfold output_append, map_addr.
  destruct (next_outcome_faultless w Hf) as [N1 Hf1].
  set (w1 := with_script (tail (w_script w)) w) in *.
  destruct (next_outcome_faultless w1 Hf1) as [N2 _].
  destruct c as [|x c].
  - (* an empty source: mmap refuses a length of zero *)
    assert (E1 : sys_mmap 0 in_fd w
                 = Some (MAP_FAILED, log (EvMmap in_fd 0 MAP_FAILED) w1)).
    { unfold sys_mmap. rewrite N1. cbn [w_fds w1 with_script].
      by rewrite Hin. }
    change (Z.of_nat (length (@nil byte))) with 0.
    rewrite (bind_some _ _ _ _ _ E1); cbv beta.
    change (MAP_FAILED =? NULL) with false. cbv iota.
    assert (E2 : sys_write_ptr out_fd MAP_FAILED 0
                   (log (EvMmap in_fd 0 MAP_FAILED) w1)
                 = Some (0, log (EvWrite out_fd [])
                              (with_script (tail (tail (w_script w)))
                                 (log (EvMmap in_fd 0 MAP_FAILED) w1)))).
    { unfold sys_write_ptr, mapped. rewrite MAP_FAILED_unaligned.
      unfold sys_write.
      assert (N2' : next_outcome (log (EvMmap in_fd 0 MAP_FAILED) w1)
                    = (Done, with_script (tail (tail (w_script w)))
                               (log (EvMmap in_fd 0 MAP_FAILED) w1))).
      { apply next_outcome_faultless. exact Hf1. }
      rewrite N2'. cbn [w_fds w1 with_script log]. by rewrite Hout. }
    rewrite (bind_some _ _ _ _ _ E2); cbv beta.
    unfold bind, sys_munmap, ret. change (0 <? 0) with false. cbn [andb].
    subst w1. destruct w. norm_world. cbn in Hq, Hout.
    rewrite app_nil_r.
    rewrite (insert_id _ _ _ Hq), (insert_id _ _ _ Hout).
    by rewrite <- !app_assoc.
  - (* a non-empty source *)
    set (c' := x :: c) in *. set (len := Z.of_nat (length c')).
    assert (Hlen : 0 < len) by (unfold len, c'; simpl; lia).
    pose proof (lowest_free_ge (w_maps w) 1) as Hge.
    pose proof (lowest_free_fresh (w_maps w) 1) as Hfr.
    set (page := lowest_free (w_maps w) 1) in *.
    assert (Hz : (len =? 0) = false) by (apply Z.eqb_neq; lia).
    rewrite Hz.
    assert (E1 : sys_mmap len in_fd w
                 = Some (page * PAGE_SIZE,
                         log (EvMmap in_fd len (page * PAGE_SIZE))
                           (with_maps (<[page := c']> (w_maps w)) w1))).
    { unfold sys_mmap. rewrite N1. cbn [w_fds w_fs w_maps w1 with_script].
      rewrite Hin. cbn [fe_write fe_path negb].
      rewrite (proj2 (Z.ltb_lt 0 len) Hlen). cbn [andb].
      rewrite Hp. cbn [default]. unfold len.
      by rewrite Nat2Z.id, firstn_all. }
    rewrite (bind_some _ _ _ _ _ E1); cbv beta.
    destruct (Z.eqb_spec (page * PAGE_SIZE) NULL) as [He|_];
      [unfold NULL, PAGE_SIZE in He; lia|].
    set (w2 := log _ (with_maps _ w1)).
    assert (E2 : sys_write_ptr out_fd (page * PAGE_SIZE) len w2
                 = Some (len,
                     log (EvWrite out_fd c')
                       (with_fds
                          (<[out_fd := FdEntry q (Z.of_nat (length (oc ++ c')))
                                         true]> (w_fds w2))
                          (with_fs (<[q := oc ++ c']> (w_fs w2))
                             (with_script (tail (w_script w2)) w2))))).
    { unfold sys_write_ptr, mapped.
      rewrite Z.mod_mul, Z.div_mul by done. cbn [Z.eqb].
      assert (Hm : w_maps w2 !! page = Some c') by apply lookup_insert_eq.
      rewrite Hm. apply sys_write_append; done. }
    rewrite (bind_some _ _ _ _ _ E2); cbv beta.
    unfold bind, sys_munmap, ret.
    rewrite (proj2 (Z.ltb_lt 0 len) Hlen), Z.mod_mul, Z.div_mul by done.
    cbn [andb Z.eqb].
    subst w2 w1. destruct w. norm_world. cbn in Hfr.
    rewrite (delete_insert_id _ _ _ Hfr).
    by rewrite <- !app_assoc.
Qed.

End Steps.

(** ** The run in which nothing fails *)

Lemma length_hdr_bytes h : length (hdr_bytes h) = 36%nat.
Proof.
  unfold hdr_bytes. rewrite !length_app, !length_le_split. reflexivity.
Qed.

Ltac fd_lookup :=
  repeat first [ rewrite lookup_insert_eq
               | rewrite lookup_insert_ne by done ];
  reflexivity.

(** The run of [generate] in which nothing fails, call by call: its
    result, the file it leaves, and every field of the world after it. *)
Lemma generate_clean cfg fr w bs k :
  clean_run cfg fr w bs k ->
  ∃ w', generate cfg fr w = Some (0, w') ∧
        w_fs w' = <[output_file cfg := image fr bs k]> (w_fs w) ∧
        w_locked w' = w_locked w ∧
        w_fds w' = w_fds w ∧
        w_maps w' = w_maps w ∧
        w_trace w' = w_trace w ++ run_trace cfg fr w bs k ∧
        w_stderr w' = w_stderr w ∧
        w_stdout w' = w_stdout w ++
          [(36 + len bs + len k, pad_size (36 + len bs + len k))].
Proof.
  intros [Hbs Hk Hlock Hob Hok Hf Hpad Hsz].
  unfold run_trace, image, fill.
  pose proof (lowest_free_ge (w_fds w) 0) as G1.
  pose proof (lowest_free_fresh (w_fds w) 0) as N1.
  fold (bs_fd_of cfg w) in G1, N1.
  pose proof (lowest_free_ge
    (<[bs_fd_of cfg w := FdEntry (bootstrap_path cfg) 0 false]> (w_fds w)) 0)
    as G2.
  pose proof (lowest_free_fresh
    (<[bs_fd_of cfg w := FdEntry (bootstrap_path cfg) 0 false]> (w_fds w)) 0)
    as N2.
  fold (k_fd_of cfg w) in G2, N2.
  pose proof (lowest_free_ge
    (<[k_fd_of cfg w := FdEntry (kernel_path cfg) 0 false]>
       (<[bs_fd_of cfg w := FdEntry (bootstrap_path cfg) 0 false]> (w_fds w)))
    0) as G3.
  pose proof (lowest_free_fresh
    (<[k_fd_of cfg w := FdEntry (kernel_path cfg) 0 false]>
       (<[bs_fd_of cfg w := FdEntry (bootstrap_path cfg) 0 false]> (w_fds w)))
    0) as N3.
  fold (out_fd_of cfg w) in G3, N3.
  set (bs_fd := bs_fd_of cfg w) in *.
  set (k_fd := k_fd_of cfg w) in *.
  set (out_fd := out_fd_of cfg w) in *.
  apply lookup_insert_None in N2 as [N2 D12].
  apply lookup_insert_None in N3 as [N3 D23].
  apply lookup_insert_None in N3 as [N3 D13].
  unfold generate.
  destruct w as [fs locked fds maps script trace err out].
  cbn [w_fs w_locked w_fds w_maps w_script w_trace w_stderr w_stdout] in *.
  (* the three opens *)
  erewrite bind_some by (eapply sys_open_rdonly; exact Hbs).
  cbv beta. norm_world.
  change (lowest_free fds 0) with bs_fd.
  destruct (Z.ltb_spec bs_fd 0) as [|_]; [lia|].
  erewrite bind_some by (eapply sys_open_rdonly; exact Hk).
  cbv beta. norm_world.
  change (lowest_free _ 0) with k_fd.
  destruct (Z.ltb_spec k_fd 0) as [|_]; [lia|].
  erewrite bind_some by (eapply sys_open_create; exact Hlock).
  cbv beta. norm_world.
  change (lowest_free (<[k_fd := _]> _) 0) with out_fd.
  destruct (Z.ltb_spec out_fd 0) as [|_]; [lia|].
  (* measuring the sources *)
  erewrite bind_some by (eapply sys_lseek_end; norm_world; fd_lookup).
  cbv beta. unfold file_size. norm_world. cbn [fe_path fe_write].
  rewrite lookup_insert_ne by done. rewrite Hbs. cbn [default from_option id].
  fold (len bs).
  erewrite bind_some by (eapply sys_lseek_set; norm_world; fd_lookup).
  cbv beta. norm_world. cbn [fe_path fe_write].
  erewrite bind_some by (eapply sys_lseek_end; norm_world; fd_lookup).
  cbv beta. unfold file_size. norm_world. cbn [fe_path fe_write].
  rewrite lookup_insert_ne by done. rewrite Hk. cbn [default from_option id].
  fold (len k).
  erewrite bind_some by (eapply sys_lseek_set; norm_world; fd_lookup).
  cbv beta. norm_world. cbn [fe_path fe_write].
  assert (Hb0 : 0 <= len bs) by (unfold len; lia).
  assert (Hk0 : 0 <= len k) by (unfold len; lia).
  fold (len bs) in Hsz. fold (len k) in Hsz.
  rewrite !(usize_small (len bs)), !(usize_small (len k)) by lia.
  fold (header_of (fr_hdr fr) (len bs) (len k)).
  set (hdr := header_of (fr_hdr fr) (len bs) (len k)).
  assert (Ht : ∀ l : list outcome,
             Forall (eq Done) l -> Forall (eq Done) (tail l)).
  { intros [|o l] H; [done|]. by apply Forall_cons in H as [_ H]. }
  unfold faultless in Hf.
  (* the header *)
  erewrite bind_some
    by (eapply (sys_write_append _ _ _ _ []);
        [ by rewrite length_hdr_bytes | exact Hf | norm_world; fd_lookup
        | norm_world; apply lookup_insert_eq ]).
  cbv beta. norm_world.
  (* the bootstrap *)
  erewrite bind_some
    by (eapply (output_append_clean _ _ _ _ _ bs ([] ++ hdr_bytes hdr));
        [ exact (Ht _ Hf) | norm_world; fd_lookup | norm_world; fd_lookup
        | norm_world; rewrite !lookup_insert_ne by done; exact Hbs
        | norm_world; apply lookup_insert_eq ]).
  cbv beta. unfold map_addr. norm_world.
  change (0 <? 0) with false. cbv iota.
  (* the kernel *)
  erewrite bind_some
    by (eapply (output_append_clean _ _ _ _ _ k
                  (([] ++ hdr_bytes hdr) ++ bs));
        [ exact (Ht _ (Ht _ (Ht _ Hf)))
        | norm_world; fd_lookup | norm_world; fd_lookup
        | norm_world; rewrite !lookup_insert_ne by done; exact Hk
        | norm_world; apply lookup_insert_eq ]).
  cbv beta. unfold map_addr. norm_world.
  change (0 <? 0) with false. cbv iota.
  (* the fill bytes *)
  change (usize (ALIGN_UP usize (total_size (len k) (len bs)) SECTOR_SIZE
                 - total_size (len k) (len bs)))
    with (pad_size (total_size (len k) (len bs))).
  pose proof (pad_size_range (total_size (len k) (len bs))
                (usize_range _)) as Hps.
  set (pad_sz := pad_size (total_size (len k) (len bs))) in *.
  destruct (memset_pad (fr_pad fr) 238 pad_sz Hpad Hps) as (p' & Em & Ep).
  destruct (Z.ltb_spec 0 pad_sz) as [Hpos|Hzero].
  - (* some fill bytes are due *)
    rewrite !bind_assoc, Em.
    erewrite (bind_some (array_access _)) by reflexivity. cbv beta.
    rewrite !bind_assoc, Ep.
    erewrite (bind_some (array_access _)) by reflexivity. cbv beta.
    rewrite !bind_assoc.
    erewrite bind_some
      by (eapply (sys_write_append _ _ _ _
                    ((([] ++ hdr_bytes hdr) ++ bs) ++ k));
          [ rewrite repeat_length; lia
          | exact (Ht _ (Ht _ (Ht _ (Ht _ (Ht _ Hf)))))
          | norm_world; fd_lookup
          | norm_world; apply lookup_insert_eq ]).
    cbv beta. norm_world.
    unfold bind, ret, printf_wrote, sys_close. norm_world.
    eexists. split; [reflexivity|]. cbv beta iota.
    repeat split.
    + rewrite !insert_insert_eq. f_equal. by rewrite <- !app_assoc.
    + apply map_eq. intros i.
      destruct (decide (i = k_fd)) as [->|?]; [by rewrite lookup_delete_eq|].
      rewrite lookup_delete_ne by done.
      destruct (decide (i = bs_fd)) as [->|?]; [by rewrite lookup_delete_eq|].
      rewrite lookup_delete_ne by done.
      destruct (decide (i = out_fd)) as [->|?]; [by rewrite lookup_delete_eq|].
      rewrite lookup_delete_ne by done.
      by rewrite !lookup_insert_ne by done.
    + unfold len, CREATE_FLAGS. rewrite <- !app_assoc. reflexivity.
    + subst pad_sz. by rewrite !total_size_small by lia.
  - (* the total is a whole number of sectors *)
    erewrite (bind_some (ret _)) by reflexivity. cbv beta.
    unfold bind, ret, printf_wrote, sys_close. norm_world.
    eexists. split; [reflexivity|]. cbv beta iota.
    assert (Hz0 : pad_sz = 0) by lia.
    repeat split.
    + rewrite !insert_insert_eq, Hz0. f_equal. cbn [Z.to_nat repeat].
      by rewrite <- !app_assoc, app_nil_r.
    + apply map_eq. intros i.
      destruct (decide (i = k_fd)) as [->|?]; [by rewrite lookup_delete_eq|].
      rewrite lookup_delete_ne by done.
      destruct (decide (i = bs_fd)) as [->|?]; [by rewrite lookup_delete_eq|].
      rewrite lookup_delete_ne by done.
      destruct (decide (i = out_fd)) as [->|?]; [by rewrite lookup_delete_eq|].
      rewrite lookup_delete_ne by done.
      by rewrite !lookup_insert_ne by done.
    + unfold len, CREATE_FLAGS. rewrite <- !app_assoc. reflexivity.
    + subst pad_sz. by rewrite !total_size_small by lia.
Qed.

(** ** The header that is written *)

Section Header.

Lemma off_usize x : off (usize x) = off x.
Proof. unfold off, usize. by rewrite Zplus_mod_idemp_l. Qed.

(** Reading back what was serialised gives every field as stored in
    its C type. *)
Lemma parse_hdr_bytes (h : image_header) (rest : list byte) :
  parse_header (hdr_bytes h ++ rest) =
    ImageHeader (u16 (hdr_size h)) (u16 (sector_count h))
      (off (bootstrap_off h)) (usize (bootstrap_size h))
      (off (kernel_off h)) (usize (kernel_size h)).
Proof.
  unfold parse_header.
  change (field 0 2 (hdr_bytes h ++ rest))
    with (le_combine (le_split 2 (hdr_size h))).
  change (field 2 2 (hdr_bytes h ++ rest))
    with (le_combine (le_split 2 (sector_count h))).
  change (field 4 8 (hdr_bytes h ++ rest))
    with (le_combine (le_split 8 (bootstrap_off h))).
  change (field 12 8 (hdr_bytes h ++ rest))
    with (le_combine (le_split 8 (bootstrap_size h))).
  change (field 20 8 (hdr_bytes h ++ rest))
    with (le_combine (le_split 8 (kernel_off h))).
  change (field 28 8 (hdr_bytes h ++ rest))
    with (le_combine (le_split 8 (kernel_size h))).
  rewrite !le_combine_split.
  change (2 ^ (Z.of_nat 2 * 8)) with (2 ^ 16).
  change (2 ^ (Z.of_nat 8 * 8)) with (2 ^ 64).
  fold (u16 (hdr_size h)) (u16 (sector_count h))
    (usize (bootstrap_off h)) (usize (bootstrap_size h))
    (usize (kernel_off h)) (usize (kernel_size h)).
  by rewrite !off_usize.
Qed.

(** The fields of the header [generate] writes, for payloads of [b]
    and [k] bytes: the bootstrap fields hold the kernel's size and
    offset, the kernel fields are never assigned. *)
Lemma header_of_fields (h0 : image_header) (b k : Z) :
  0 <= b -> 0 <= k -> 36 + b + k < 2 ^ 64 ->
  header_of h0 b k =
    ImageHeader 36 (stored_sectors (36 + b + k)) (off (512 + b)) k
      (kernel_off h0) (kernel_size h0).
Proof.
  intros Hb Hk Hsz.
  unfold header_of, prepare_sector_count, set_sector_count,
    set_bootstrap_off, set_bootstrap_size, set_hdr_size.
  cbn [hdr_size sector_count bootstrap_off bootstrap_size kernel_off
       kernel_size].
  change (u16 sizeof_hdr) with 36. change MBR_END_OFFSET with 512.
  rewrite (usize_small (36 + k)), (usize_small (36 + k + b)) by lia.
  rewrite (usize_small k) by lia. rewrite off_usize.
  rewrite ALIGN_UP_int by apply u16_range.
  replace (36 + k + b) with (36 + b + k) by lia.
  set (s := u16 (36 + b + k)).
  set (a := u16 (512 * ((s + 511) / 512))).
  assert (Ha : 0 <= a < 2 ^ 16) by apply u16_range.
  change SECTOR_SIZE with 512.
  rewrite Z.quot_div_nonneg by lia.
  assert (Hq : 0 <= a / 512 < 2 ^ 16).
  { split; [apply Z.div_pos; lia|].
    apply Z.div_lt_upper_bound; lia. }
  rewrite int_small by lia. rewrite u16_small by lia.
  reflexivity.
Qed.

(** Up to 65024 bytes the stored count is the true one. *)
Lemma stored_sectors_small (t : Z) :
  0 <= t <= 65024 -> stored_sectors t = sectors t.
Proof.
  intros Ht. unfold stored_sectors, sectors.
  rewrite (u16_small t) by lia.
  assert (Hq : 0 <= (t + 511) / 512 <= 127).
  { split; [apply Z.div_pos; lia|].
    apply Z.lt_succ_r. apply Z.div_lt_upper_bound; lia. }
  rewrite u16_small by lia.
  rewrite Z.mul_comm, Z.div_mul by lia. reflexivity.
Qed.

Lemma stored_sectors_range (t : Z) : 0 <= stored_sectors t <= 127.
Proof.
  unfold stored_sectors.
  pose proof (u16_range (512 * ((u16 t + 511) / 512))) as H.
  split; [apply Z.div_pos; lia|].
  apply Z.lt_succ_r. apply Z.div_lt_upper_bound; lia.
Qed.

Lemma off_off x : off (off x) = off x.
Proof.
  apply off_small. unfold off.
  pose proof (Z.mod_pos_bound (x + 2 ^ 63) (2 ^ 64) ltac:(lia)). lia.
Qed.

Lemma len_nonneg (l : list byte) : 0 <= len l.
Proof. unfold len. lia. Qed.

End Header.

(** ** Images of clean runs *)

(** [sectors t] is the least number of 512-byte sectors that hold [t]
    bytes. *)
Lemma sectors_ceil (t : Z) :
  512 * (sectors t - 1) < t <= 512 * sectors t.
Proof.
  unfold sectors.
  pose proof (Z.div_mod (t + 511) 512 ltac:(lia)).
  pose proof (Z.mod_pos_bound (t + 511) 512 ltac:(lia)). lia.
Qed.

Lemma clean_sample (bs k : list byte) (script : list outcome) :
  Forall (eq Done) script ->
  36 + len bs + len k < 2 ^ 64 ->
  clean_run cfg0 fr0 (boot_world (fs_of bs k) script) bs k.
Proof.
  intros Hs Hsz. split.
  - apply lookup_insert_eq.
  - unfold boot_world, fs_of. cbn [w_fs bootstrap_path kernel_path cfg0].
    rewrite lookup_insert_ne by done. apply lookup_insert_eq.
  - apply not_elem_of_empty.
  - done.
  - done.
  - exact Hs.
  - reflexivity.
  - exact Hsz.
Qed.

Lemma len_kernel_64k : len kernel_64k = 65536.
Proof. unfold len, kernel_64k. rewrite repeat_length. by rewrite Z2Nat.id. Qed.

Lemma clean_64k : clean_run cfg0 fr0 w_64k [] kernel_64k.
Proof.
  apply clean_sample; [constructor|].
  rewrite len_kernel_64k. change (len []) with 0. lia.
Qed.

(** The image a clean run leaves under the output path. *)
Lemma image_of_clean cfg fr w bs k :
  clean_run cfg fr w bs k ->
  ∃ w', generate cfg fr w = Some (0, w') ∧
        w_fs w' !! output_file cfg = Some (image fr bs k).
Proof.
  intros H. destruct (generate_clean _ _ _ _ _ H) as (w' & E & Hfs & _).
  exists w'. split; [done|]. rewrite Hfs. apply lookup_insert_eq.
Qed.

Lemma image_of_64k : image_of (generate cfg0 fr0 w_64k) = image fr0 [] kernel_64k.
Proof.
  destruct (image_of_clean _ _ _ _ _ clean_64k) as (w' & E & Hfs).
  unfold image_of. rewrite E.
  change (output_file cfg0) with "kernel.img" in Hfs. by rewrite Hfs.
Qed.

(** The header of the image of a clean run, read back from the file. *)
Lemma parse_image fr bs k :
  36 + len bs + len k < 2 ^ 64 ->
  parse_header (image fr bs k) =
    ImageHeader 36 (stored_sectors (36 + len bs + len k))
      (off (512 + len bs)) (len k)
      (off (kernel_off (fr_hdr fr))) (usize (kernel_size (fr_hdr fr))).
Proof.
  intros Hsz. unfold image. rewrite parse_hdr_bytes.
  pose proof (len_nonneg bs). pose proof (len_nonneg k).
  rewrite header_of_fields by lia.
  cbn [hdr_size sector_count bootstrap_off bootstrap_size kernel_off
       kernel_size].
  change (u16 36) with 36.
  rewrite (usize_small (len k)) by lia.
  pose proof (stored_sectors_range (36 + len bs + len k)).
  rewrite u16_small by lia. by rewrite off_off.
Qed.

Lemma len_image fr bs k :
  len (image fr bs k)
  = 36 + len bs + len k + pad_size (total_size (len k) (len bs)).
Proof.
  unfold image, fill, len.
  rewrite !length_app, length_hdr_bytes, repeat_length.
  pose proof (pad_size_range (total_size (Z.of_nat (length k))
                                (Z.of_nat (length bs))) (usize_range _)).
  rewrite !Nat2Z.inj_add, Z2Nat.id by lia. change (Z.of_nat 36) with 36. lia.
Qed.

(** * The claims *)

(** ** C1: the fields of the header *)

(** In every clean run the header in the file has the kernel's size in
    [bootstrap_size], the end of the bootstrap in [bootstrap_off], and in
    [kernel_off] and [kernel_size] whatever the stack held: the second
    pair of assignments in [generate] stores into the bootstrap fields
    again. *)
Lemma clean_header cfg fr w bs k :
  clean_run cfg fr w bs k ->
  ∃ w' img, generate cfg fr w = Some (0, w') ∧
    w_fs w' !! output_file cfg = Some img ∧
    bootstrap_off (parse_header img) = off (512 + len bs) ∧
    bootstrap_size (parse_header img) = len k ∧
    kernel_off (parse_header img) = off (kernel_off (fr_hdr fr)) ∧
    kernel_size (parse_header img) = usize (kernel_size (fr_hdr fr)).
Proof.
  intros H. destruct (image_of_clean _ _ _ _ _ H) as (w' & E & Hfs).
  exists w', (image fr bs k). split; [done|]. split; [done|].
  rewrite parse_image by apply (cr_size _ _ _ _ _ H). by repeat split.
Qed.

(** C1 (code defect).  The claim: the header has [bootstrap_off = 512],
    [bootstrap_size = b], [kernel_off = 512 + b] and [kernel_size = k].
    For a bootstrap of 1 byte and a kernel of 2 bytes the header that
    [generate] writes has [bootstrap_off = 513] and [bootstrap_size = 2],
    and its kernel fields still hold the indeterminate contents of the
    local [hdr] (here [0x3333] and [0x4444]). *)
Theorem header_fields_hold_kernel_values :
  parse_header (image_of (generate cfg0 fr0 w_small))
  = ImageHeader 36 1 513 2 (kernel_off junk_hdr) (kernel_size junk_hdr).
Proof. vm_compute. reflexivity. Qed.

(** ** C2: the sector count *)

(** As long as header and payloads together stay within 65024 bytes the
    sector count in the file is the number of sectors of the total. *)
Lemma clean_sector_count_small cfg fr w bs k :
  clean_run cfg fr w bs k ->
  36 + len bs + len k <= 65024 ->
  ∃ w' img, generate cfg fr w = Some (0, w') ∧
    w_fs w' !! output_file cfg = Some img ∧
    sector_count (parse_header img) = sectors (36 + len bs + len k).
Proof.
  intros H Hs. destruct (image_of_clean _ _ _ _ _ H) as (w' & E & Hfs).
  exists w', (image fr bs k). split; [done|]. split; [done|].
  rewrite parse_image by apply (cr_size _ _ _ _ _ H).
  cbn [sector_count]. apply stored_sectors_small.
  pose proof (len_nonneg bs). pose proof (len_nonneg k). lia.
Qed.

(** C2 (code defect).  The claim: [sector_count] is the byte total
    [36 + b + k] divided by 512 and rounded up, for all sizes.  With no
    bootstrap and a kernel of 65536 bytes the total is 65572 bytes, 129
    sectors; [generate] stores the total into the 16-bit field before it
    rounds, which leaves 36, and the header says 1 sector. *)
Theorem sector_count_truncated_at_64k :
  sector_count (parse_header (image_of (generate cfg0 fr0 w_64k))) = 1 ∧
  sectors (36 + 0 + 65536) = 129.
Proof.
  split; [|reflexivity].
  rewrite image_of_64k, parse_image
    by (rewrite len_kernel_64k; change (len []) with 0; lia).
  cbn [sector_count]. rewrite len_kernel_64k. reflexivity.
Qed.

(** ** C3: where the payloads are *)

(** C3, the claim refuted.  The claim: the bootstrap is at offsets
    [512 .. 512 + b] of the file and the kernel at
    [512 + b .. 512 + b + k].  With a bootstrap of 4 bytes and a kernel of
    600 bytes the 4 bytes at offset 512 are kernel bytes, and 600 bytes
    from offset 516 do not exist in the 1024-byte file. *)
Lemma payloads_not_at_512 :
  let img := image_of (generate cfg0 fr0 w_two_sectors) in
  ¬ (slice 512 4 img = payload_a ∧
     slice (512 + 4) 600 img = repeat Byte.x07 600).
Proof. vm_compute. intros [H _]. discriminate H. Qed.

(** C3 (corrected).  In a clean run the bootstrap's bytes are the [b]
    bytes of the file from offset 36, right after the header, and the
    kernel's bytes are the [k] bytes from offset [36 + b]. *)
Theorem payloads_follow_header cfg fr w bs k :
  clean_run cfg fr w bs k ->
  ∃ w' img, generate cfg fr w = Some (0, w') ∧
    w_fs w' !! output_file cfg = Some img ∧
    slice 36 (length bs) img = bs ∧
    slice (36 + length bs) (length k) img = k.
Proof.
  intros H. destruct (image_of_clean _ _ _ _ _ H) as (w' & E & Hfs).
  exists w', (image fr bs k). split; [done|]. split; [done|].
  unfold slice, image.
  pose proof (length_hdr_bytes (header_of (fr_hdr fr) (len bs) (len k)))
    as Hh.
  split.
  - rewrite drop_app_length' by done. by rewrite take_app_length.
  - rewrite <- drop_drop, drop_app_length' by done.
    rewrite drop_app_length. by rewrite take_app_length.
Qed.

Lemma payloads_follow_header_witness :
  clean_run cfg0 fr0 w_small [Byte.x01] [Byte.x02; Byte.x03] ∧
  ∃ w' img, generate cfg0 fr0 w_small = Some (0, w') ∧
    w_fs w' !! output_file cfg0 = Some img ∧
    slice 36 1 img = [Byte.x01] ∧
    slice (36 + 1) 2 img = [Byte.x02; Byte.x03].
Proof.
  assert (H : clean_run cfg0 fr0 w_small [Byte.x01] [Byte.x02; Byte.x03]).
  { apply clean_sample; [constructor | vm_compute; reflexivity]. }
  split; [exact H|].
  apply (payloads_follow_header cfg0 fr0 w_small _ _ H).
Defined.

(** ** C4: the length of the image *)

Lemma aligned_total (t : Z) : t + (- t) mod 512 = 512 * sectors t.
Proof.
  unfold sectors.
  pose proof (Z.div_mod (t + 511) 512 ltac:(lia)) as D.
  pose proof (Z.mod_pos_bound (t + 511) 512 ltac:(lia)) as B.
  assert (E : (- t) mod 512 = 511 - (t + 511) mod 512).
  { symmetry. apply Z.mod_unique with (q := - ((t + 511) / 512)); lia. }
  lia.
Qed.

(** In every clean run the file is a whole number of sectors long: the
    sectors of the byte total, which the fill bytes, fewer than 512,
    complete.  Up to 65024 bytes this is also the count in the header. *)
Lemma clean_image_length cfg fr w bs k :
  clean_run cfg fr w bs k ->
  let total := 36 + len bs + len k in
  ∃ w' img, generate cfg fr w = Some (0, w') ∧
    w_fs w' !! output_file cfg = Some img ∧
    len img = 512 * sectors total ∧
    len img - total = pad_size total ∧
    0 <= pad_size total < 512 ∧
    (total <= 65024 -> len img = sector_count (parse_header img) * 512).
Proof.
  intros H total. destruct (image_of_clean _ _ _ _ _ H) as (w' & E & Hfs).
  pose proof (cr_size _ _ _ _ _ H) as Hsz.
  pose proof (len_nonneg bs). pose proof (len_nonneg k).
  exists w', (image fr bs k). split; [done|]. split; [done|].
  rewrite len_image, total_size_small by lia. fold total.
  assert (Ht : 0 <= total < 2 ^ 64) by (unfold total; lia).
  pose proof (pad_size_range total Ht) as Hp.
  pose proof (pad_size_mod total Ht) as Hm.
  pose proof (aligned_total total) as Ha.
  split; [lia|]. split; [lia|]. split; [lia|].
  intros Hs. rewrite parse_image by done. cbn [sector_count]. fold total.
  rewrite stored_sectors_small by (unfold total; lia). lia.
Qed.

(** C4 (code defect, the one of C2).  The claim: the length of the file
    is [sector_count * 512] for the [sector_count] in the header.  With
    no bootstrap and a kernel of 65536 bytes the file is 66048 bytes
    long, 129 sectors, 476 of the bytes being fill; the header's count
    of 1 stands for 512 bytes. *)
Theorem image_longer_than_header_says_at_64k :
  let img := image_of (generate cfg0 fr0 w_64k) in
  len img = 129 * 512 ∧
  len img - (36 + 0 + 65536) = 476 ∧
  sector_count (parse_header img) * 512 = 512.
Proof.
  cbv zeta. rewrite image_of_64k, len_image, len_kernel_64k.
  rewrite parse_image
    by (rewrite len_kernel_64k; change (len []) with 0; lia).
  cbn [sector_count]. rewrite len_kernel_64k.
  change (len []) with 0. vm_compute. by repeat split.
Qed.

(** ** C5: the fill bytes *)

Lemma pad_size_aligned (t : Z) :
  0 <= t < 2 ^ 64 -> t mod 512 = 0 -> pad_size t = 0.
Proof.
  intros Ht Hm. rewrite pad_size_mod by done.
  apply Z.mod_opp_l_z; [lia | done].
Qed.

Lemma writes_run_trace cfg fr w bs k :
  writes_to (out_fd_of cfg w) (run_trace cfg fr w bs k)
  = [hdr_bytes (header_of (fr_hdr fr) (len bs) (len k)); bs; k]
    ++ (if 0 <? pad_size (total_size (len k) (len bs))
        then [fill bs k] else []).
Proof.
  unfold writes_to, run_trace. rewrite !omap_app.
  destruct (0 <? pad_size (total_size (len k) (len bs)));
    cbn [omap list_omap app]; repeat case_decide; done.
Qed.

(** C5 (confirmed).  In a clean run the file ends with exactly
    [pad_size] bytes [0xEE] after the [36 + b + k] bytes of header and
    payloads, [pad_size] being what is missing to the next multiple of
    512; when [36 + b + k] is a multiple of 512, [pad_size] is 0, the
    file ends with the kernel and the only writes to the output are the
    header and the two payloads. *)
Theorem fill_bytes_end_the_image cfg fr w bs k :
  clean_run cfg fr w bs k ->
  let total := 36 + len bs + len k in
  ∃ w' body tr,
    generate cfg fr w = Some (0, w') ∧
    len body = total ∧
    w_fs w' !! output_file cfg
      = Some (body ++ repeat Byte.xee (Z.to_nat (pad_size total))) ∧
    0 <= pad_size total < 512 ∧
    (total + pad_size total) mod 512 = 0 ∧
    w_trace w' = w_trace w ++ tr ∧
    (total mod 512 = 0 ->
       pad_size total = 0 ∧
       w_fs w' !! output_file cfg = Some body ∧
       length (writes_to (out_fd_of cfg w) tr) = 3%nat ∧
       concat (writes_to (out_fd_of cfg w) tr) = body).
Proof.
  intros H total.
  destruct (generate_clean _ _ _ _ _ H) as (w' & E & Hfs & _ & _ & _ & Htr & _).
  pose proof (cr_size _ _ _ _ _ H) as Hsz.
  pose proof (len_nonneg bs) as Hb. pose proof (len_nonneg k) as Hk.
  assert (Ht : 0 <= total < 2 ^ 64) by (unfold total; lia).
  pose proof (pad_size_range total Ht) as Hp.
  exists w', (hdr_bytes (header_of (fr_hdr fr) (len bs) (len k)) ++ bs ++ k),
    (run_trace cfg fr w bs k).
  assert (Himg : w_fs w' !! output_file cfg
            = Some ((hdr_bytes (header_of (fr_hdr fr) (len bs) (len k))
                     ++ bs ++ k)
                    ++ repeat Byte.xee (Z.to_nat (pad_size total)))).
  { rewrite Hfs, lookup_insert_eq. unfold image, fill.
    rewrite total_size_small by lia. fold total.
    change (byte.of_Z 238) with Byte.xee. by rewrite <- !app_assoc. }
  split; [done|]. split.
  { unfold len. rewrite !length_app, length_hdr_bytes, !Nat2Z.inj_add.
    unfold total, len. change (Z.of_nat 36) with 36. lia. }
  split; [done|]. split; [done|]. split.
  { rewrite pad_size_mod by done. rewrite aligned_total.
    by rewrite Z.mul_comm, Z.mod_mul. }
  split; [done|].
  intros Hm. pose proof (pad_size_aligned total Ht Hm) as Hz.
  split; [done|]. split.
  - rewrite Himg, Hz. cbn [Z.to_nat repeat]. by rewrite app_nil_r.
  - rewrite writes_run_trace, total_size_small by lia. fold total.
    rewrite Hz. split; [done|]. cbn [Z.ltb Z.compare app concat].
    by rewrite app_nil_r.
Qed.

Lemma fill_bytes_end_the_image_witness :
  clean_run cfg0 fr0 w_one_sector (repeat Byte.x01 200) (repeat Byte.x02 276) ∧
  ∃ w' body tr,
    generate cfg0 fr0 w_one_sector = Some (0, w') ∧
    len body = 512 ∧
    w_fs w' !! "kernel.img"
      = Some (body ++ repeat Byte.xee (Z.to_nat (pad_size 512))) ∧
    0 <= pad_size 512 < 512 ∧
    (512 + pad_size 512) mod 512 = 0 ∧
    w_trace w' = w_trace w_one_sector ++ tr ∧
    (512 mod 512 = 0 ->
       pad_size 512 = 0 ∧
       w_fs w' !! "kernel.img" = Some body ∧
       length (writes_to (out_fd_of cfg0 w_one_sector) tr) = 3%nat ∧
       concat (writes_to (out_fd_of cfg0 w_one_sector) tr) = body).
Proof.
  assert (H : clean_run cfg0 fr0 w_one_sector
                (repeat Byte.x01 200) (repeat Byte.x02 276)).
  { apply clean_sample; [constructor | vm_compute; reflexivity]. }
  split; [exact H|].
  apply (fill_bytes_end_the_image cfg0 fr0 w_one_sector _ _ H).
Defined.

(** ** C6: the order of the run *)

(** C6 (confirmed).  In a clean run [generate] returns 0 and makes these
    system calls, in this order and no others: the three opens; for each
    source one [lseek] to the end, which measures it, and one back to
    the start, both sources before anything is written; one write of the
    36 header bytes; for the bootstrap and then for the kernel one
    [mmap] of the whole file, one write of all its bytes and the
    [munmap]; one write of the fill bytes when there are any; the three
    closes.  The bytes written to the output, in order, are the header,
    the bootstrap, the kernel and the fill, and they are the file. *)
Theorem sink_receives_header_payloads_fill cfg fr w bs k :
  clean_run cfg fr w bs k ->
  let bs_fd := bs_fd_of cfg w in
  let k_fd := k_fd_of cfg w in
  let out_fd := out_fd_of cfg w in
  let hdr := hdr_bytes (header_of (fr_hdr fr) (len bs) (len k)) in
  let pad := fill bs k in
  ∃ w' tr,
    generate cfg fr w = Some (0, w') ∧
    w_trace w' = w_trace w ++ tr ∧
    tr = [ EvOpen (bootstrap_path cfg) O_RDONLY bs_fd;
           EvOpen (kernel_path cfg) O_RDONLY k_fd;
           EvOpen (output_file cfg) CREATE_FLAGS out_fd;
           EvLseek bs_fd SEEK_END (len bs);
           EvLseek bs_fd SEEK_SET 0;
           EvLseek k_fd SEEK_END (len k);
           EvLseek k_fd SEEK_SET 0;
           EvWrite out_fd hdr;
           EvMmap bs_fd (len bs) (map_addr w (len bs));
           EvWrite out_fd bs;
           EvMunmap (map_addr w (len bs)) (len bs);
           EvMmap k_fd (len k) (map_addr w (len k));
           EvWrite out_fd k;
           EvMunmap (map_addr w (len k)) (len k) ]
         ++ (if 0 <? len pad then [EvWrite out_fd pad] else [])
         ++ [ EvClose out_fd; EvClose bs_fd; EvClose k_fd ] ∧
    length hdr = 36%nat ∧
    concat (writes_to out_fd tr) = hdr ++ bs ++ k ++ pad ∧
    w_fs w' !! output_file cfg = Some (hdr ++ bs ++ k ++ pad).
Proof.
  intros H. cbv zeta.
  destruct (generate_clean _ _ _ _ _ H) as (w' & E & Hfs & _ & _ & _ & Htr & _).
  pose proof (pad_size_range (total_size (len k) (len bs)) (usize_range _))
    as Hp.
  assert (Hl : len (fill bs k) = pad_size (total_size (len k) (len bs))).
  { unfold fill, len. rewrite repeat_length. apply Z2Nat.id, Hp. }
  exists w', (run_trace cfg fr w bs k).
  split; [done|]. split; [done|]. split.
  { unfold run_trace. by rewrite Hl. }
  split; [apply length_hdr_bytes|]. split.
  - rewrite writes_run_trace.
    destruct (Z.ltb_spec 0 (pad_size (total_size (len k) (len bs))))
      as [Hpos|Hz].
    + cbn [app concat]. by rewrite app_nil_r.
    + cbn [app concat]. rewrite app_nil_r.
      assert (E0 : fill bs k = []).
      { unfold fill.
        replace (pad_size (total_size (len k) (len bs))) with 0 by lia.
        reflexivity. }
      by rewrite E0, app_nil_r.
  - rewrite Hfs. apply lookup_insert_eq.
Qed.

Lemma sink_receives_header_payloads_fill_witness :
  clean_run cfg0 fr0 w_small [Byte.x01] [Byte.x02; Byte.x03] ∧
  ∃ w' tr,
    generate cfg0 fr0 w_small = Some (0, w') ∧
    w_trace w' = w_trace w_small ++ tr ∧
    tr = [ EvOpen "boot.bin" O_RDONLY 3;
           EvOpen "kernel.bin" O_RDONLY 4;
           EvOpen "kernel.img" CREATE_FLAGS 5;
           EvLseek 3 SEEK_END 1;
           EvLseek 3 SEEK_SET 0;
           EvLseek 4 SEEK_END 2;
           EvLseek 4 SEEK_SET 0;
           EvWrite 5 (hdr_bytes (header_of junk_hdr 1 2));
           EvMmap 3 1 4096;
           EvWrite 5 [Byte.x01];
           EvMunmap 4096 1;
           EvMmap 4 2 4096;
           EvWrite 5 [Byte.x02; Byte.x03];
           EvMunmap 4096 2 ]
         ++ [EvWrite 5 (repeat Byte.xee 473)]
         ++ [ EvClose 5; EvClose 3; EvClose 4 ] ∧
    length (hdr_bytes (header_of junk_hdr 1 2)) = 36%nat ∧
    concat (writes_to 5 tr)
      = hdr_bytes (header_of junk_hdr 1 2) ++ [Byte.x01]
          ++ [Byte.x02; Byte.x03] ++ repeat Byte.xee 473 ∧
    w_fs w' !! "kernel.img"
      = Some (hdr_bytes (header_of junk_hdr 1 2) ++ [Byte.x01]
                ++ [Byte.x02; Byte.x03] ++ repeat Byte.xee 473).
Proof.
  assert (H : clean_run cfg0 fr0 w_small [Byte.x01] [Byte.x02; Byte.x03]).
  { apply clean_sample; [constructor | vm_compute; reflexivity]. }
  split; [exact H|].
  apply (sink_receives_header_payloads_fill cfg0 fr0 w_small _ _ H).
Defined.

(** ** C7: failed writes *)


Section Stages.

Lemma makes_trans cs1 cs2 w1 w2 w3 :
  makes cs1 w1 w2 -> makes cs2 w2 w3 -> makes (cs1 ++ cs2) w1 w3.
Proof.
  intros (T1 & O1 & E1) (T2 & O2 & E2). unfold makes.
  rewrite T2, T1, app_assoc. split; [done|]. split; congruence.
Qed.

Lemma makes_refl w : makes [] w w.
Proof. unfold makes. by rewrite app_nil_r. Qed.

Lemma makes_log e w0 w :
  w_trace w0 = w_trace w -> w_stdout w0 = w_stdout w ->
  w_stderr w0 = w_stderr w ->
  makes [call_of e] w (log e w0).
Proof.
  intros T O E. unfold makes, calls. cbn [w_trace w_stdout w_stderr log].
  by rewrite map_app, T.
Qed.

Lemma next_outcome_quiet w :
  w_trace (next_outcome w).2 = w_trace w ∧
  w_stdout (next_outcome w).2 = w_stdout w ∧
  w_stderr (next_outcome w).2 = w_stderr w.
Proof. unfold next_outcome. by destruct (w_script w). Qed.

Lemma sys_lseek_makes fd o wh w :
  ∃ r w', sys_lseek fd o wh w = Some (r, w') ∧ makes [CallLseek fd wh] w w'.
Proof.
  unfold sys_lseek. destruct (w_fds w !! fd) as [e|].
  - destruct (_ <? 0); eexists _, _; (split; [reflexivity|]);
      by apply (makes_log (EvLseek fd wh _)).
  - eexists _, _. split; [reflexivity|].
    by apply (makes_log (EvLseek fd wh _)).
Qed.

Lemma sys_write_makes fd buf n w :
  ∃ r w', sys_write fd buf n w = Some (r, w') ∧ makes [CallWrite fd] w w'.
Proof.
  unfold sys_write. destruct (next_outcome_quiet w) as (T & O & E).
  destruct (next_outcome w) as [o w1]. cbn [snd] in T, O, E.
  assert (H : ∀ (r : Z) d w0,
            w_trace w0 = w_trace w1 -> w_stdout w0 = w_stdout w1 ->
            w_stderr w0 = w_stderr w1 ->
            ∃ r' w', Some (r, log (EvWrite fd d) w0) = Some (r', w') ∧
                     makes [CallWrite fd] w w').
  { intros r d w0 T0 O0 E0. eexists _, _. split; [reflexivity|].
    apply (makes_log (EvWrite fd d)); congruence. }
  destruct (w_fds w1 !! fd) as [e|]; [|destruct buf, o; by apply H].
  destruct buf as [b|]; [|by apply H].
  destruct o; [| |by apply H]; (destruct (fe_write e); by apply H).
Qed.

Lemma sys_mmap_makes len fd w :
  ∃ r w', sys_mmap len fd w = Some (r, w') ∧ r ≠ NULL ∧
          makes [CallMmap fd] w w'.
Proof.
  destruct (sys_mmap_res len fd w) as (r & w' & E & Hnull & _).
  exists r, w'. split; [done|]. split; [done|].
  revert E. unfold sys_mmap. destruct (next_outcome_quiet w) as (T & O & S).
  destruct (next_outcome w) as [o w1]. cbn [snd] in T, O, S.
  assert (H : ∀ (a : Z) w0,
            w_trace w0 = w_trace w1 -> w_stdout w0 = w_stdout w1 ->
            w_stderr w0 = w_stderr w1 ->
            Some (a, log (EvMmap fd len a) w0) = Some (r, w') ->
            makes [CallMmap fd] w w').
  { intros a w0 T0 O0 E0 [= <- <-].
    apply (makes_log (EvMmap fd len a)); congruence. }
  destruct (w_fds w1 !! fd) as [e|]; [|by apply H].
  destruct o; [| |by apply H];
    (destruct ((0 <? len) && negb (fe_write e)); by apply H).
Qed.

Lemma sys_munmap_makes addr len w :
  ∃ r w', sys_munmap addr len w = Some (r, w') ∧ makes [CallMunmap] w w'.
Proof.
  unfold sys_munmap.
  destruct ((0 <? len) && (addr mod PAGE_SIZE =? 0));
    eexists _, _; (split; [reflexivity|]);
    by apply (makes_log (EvMunmap addr len)).
Qed.

Lemma sys_close_makes fd w :
  ∃ r w', sys_close fd w = Some (r, w') ∧ makes [CallClose fd] w w'.
Proof.
  unfold sys_close. eexists _, _. split; [reflexivity|].
  by apply (makes_log (EvClose fd)).
Qed.

(** [output_append] maps, writes and unmaps on every call, and returns
    0 whatever the three calls gave. *)
Lemma output_append_makes out_fd in_fd sz w :
  ∃ w', output_append out_fd in_fd sz w = Some (0, w') ∧
        makes [CallMmap in_fd; CallWrite out_fd; CallMunmap] w w'.
Proof.
  unfold output_append.
  destruct (sys_mmap_makes sz in_fd w) as (data & w1 & E1 & Hnull & K1).
  rewrite (bind_some _ _ _ _ _ E1); cbv beta.
  destruct (Z.eqb_spec data NULL) as [|_]; [done|].
  destruct (sys_write_makes out_fd (mapped w1 data) sz w1)
    as (r2 & w2 & E2 & K2).
  change (sys_write_ptr out_fd data sz w1 = Some (r2, w2)) in E2.
  rewrite (bind_some _ _ _ _ _ E2); cbv beta.
  destruct (sys_munmap_makes data sz w2) as (r3 & w3 & E3 & K3).
  rewrite (bind_some _ _ _ _ _ E3); cbv beta.
  eexists. split; [reflexivity|].
  exact (makes_trans _ _ _ _ _ K1 (makes_trans _ _ _ _ _ K2 K3)).
Qed.

End Stages.

(** One step of a run: the call is carried out and added to the calls
    made so far. *)
Ltac add_call w K :=
  lazymatch goal with
  | A : makes _ _ w |- _ =>
      let A' := fresh "A" in
      pose proof (makes_trans _ _ _ _ _ A K) as A'; clear A K
  end.

Ltac run_makes :=
  lazymatch goal with
  | |- context [bind (sys_lseek ?a ?b ?c) _ ?w] =>
      let r := fresh "r" in let w' := fresh "w" in
      let E := fresh "E" in let K := fresh "K" in
      destruct (sys_lseek_makes a b c w) as (r & w' & E & K);
      rewrite (bind_some _ _ _ _ _ E); cbv beta; clear E; add_call w K
  | |- context [bind (sys_write ?a ?b ?c) _ ?w] =>
      let r := fresh "r" in let w' := fresh "w" in
      let E := fresh "E" in let K := fresh "K" in
      destruct (sys_write_makes a b c w) as (r & w' & E & K);
      rewrite (bind_some _ _ _ _ _ E); cbv beta; clear E; add_call w K
  | |- context [bind (output_append ?a ?b ?c) _ ?w] =>
      let w' := fresh "w" in
      let E := fresh "E" in let K := fresh "K" in
      destruct (output_append_makes a b c w) as (w' & E & K);
      rewrite (bind_some _ _ _ _ _ E); cbv beta; clear E; add_call w K
  | |- context [bind (sys_close ?a) _ ?w] =>
      let r := fresh "r" in let w' := fresh "w" in
      let E := fresh "E" in let K := fresh "K" in
      destruct (sys_close_makes a w) as (r & w' & E & K);
      rewrite (bind_some _ _ _ _ _ E); cbv beta; clear E; add_call w K
  end.



(** ** C8: a source that cannot be opened *)

(** When the bootstrap cannot be opened [generate] says so. *)
Lemma missing_bootstrap_is_reported :
  ∃ w', generate cfg0 fr0 w_no_bootstrap = Some (-1, w') ∧
        w_stderr w' = ["open[bs]"] ∧
        w_fs w' = w_fs w_no_bootstrap ∧
        open_fds w' = open_fds w_no_bootstrap.
Proof.
  eexists. split; [vm_compute; reflexivity|].
  repeat split; vm_compute; reflexivity.
Qed.

(** C8 (code defect).  The claim: when a source cannot be opened the
    error identifies it.  With the kernel file missing [generate] closes
    the bootstrap, creates no output and returns -1, as the claim says,
    but prints nothing: the branch lacks the [perror] that its two
    siblings have, and a caller cannot tell which file failed. *)
Theorem missing_kernel_is_not_reported :
  ∃ w', generate cfg0 fr0 w_no_kernel = Some (-1, w') ∧
        w_stderr w' = [] ∧
        w_fs w' = w_fs w_no_kernel ∧
        open_fds w' = open_fds w_no_kernel ∧
        w_trace w' = [EvOpen "boot.bin" O_RDONLY 3;
                      EvOpen "kernel.bin" O_RDONLY (-1); EvClose 3].
Proof.
  eexists. split; [vm_compute; reflexivity|].
  repeat split; vm_compute; reflexivity.
Qed.

(** ** C9: descriptors and mappings *)

(** C9 (confirmed).  On every path through [generate], whichever opens
    fail and whatever the kernel answers to [mmap] and [write], the
    descriptors open and the pages mapped when it returns are those of
    before the call. *)
Theorem resources_are_released cfg fr w :
  length (fr_pad fr) = 512%nat ->
  ∃ r w', generate cfg fr w = Some (r, w') ∧
          open_fds w' = open_fds w ∧
          mapped_pages w' = mapped_pages w.
Proof.
  intros Hpad.
  destruct (generate_total cfg fr w Hpad) as (r & w' & E & F & Mp & _).
  by exists r, w'.
Qed.

Lemma resources_are_released_witness :
  length (fr_pad fr0) = 512%nat ∧
  ∃ r w', generate cfg0 fr0 w_header_write_fails = Some (r, w') ∧
          open_fds w' = open_fds w_header_write_fails ∧
          mapped_pages w' = mapped_pages w_header_write_fails.
Proof.
  split; [reflexivity|].
  apply (resources_are_released cfg0 fr0 w_header_write_fails).
  reflexivity.
Defined.

(** ** C10: the bounds of [pad] *)

(** C10 (confirmed).  For all sizes, also those whose sum wraps around
    in [size_t], the count of fill bytes is below 512, so that the
    [memset] into the 512-byte array [pad] and the read of it by [write]
    stay within the array; and no run of [generate] leaves the bounds of
    an array. *)
Theorem pad_stays_within_its_array cfg fr w :
  length (fr_pad fr) = 512%nat ->
  (∀ bs_sz k_sz : Z,
     let pad_sz := pad_size (total_size k_sz bs_sz) in
     0 <= pad_sz < 512 ∧
     ∃ pad', memset (fr_pad fr) 0xEE pad_sz = Some pad' ∧
             is_Some (array_prefix pad' pad_sz)) ∧
  is_Some (generate cfg fr w).
Proof.
  intros Hpad. split.
  - intros bs_sz k_sz pad_sz.
    pose proof (pad_size_range (total_size k_sz bs_sz) (usize_range _))
      as Hp.
    split; [done|].
    destruct (memset_pad (fr_pad fr) 0xEE pad_sz Hpad Hp) as (p' & Em & Ep).
    exists p'. split; [done|]. rewrite Ep. eauto.
  - destruct (generate_total cfg fr w Hpad) as (r & w' & E & _).
    rewrite E. eauto.
Qed.

Lemma pad_stays_within_its_array_witness :
  length (fr_pad fr0) = 512%nat ∧
  (∀ bs_sz k_sz : Z,
     let pad_sz := pad_size (total_size k_sz bs_sz) in
     0 <= pad_sz < 512 ∧
     ∃ pad', memset (fr_pad fr0) 0xEE pad_sz = Some pad' ∧
             is_Some (array_prefix pad' pad_sz)) ∧
  is_Some (generate cfg0 fr0 w_small).
Proof.
  split; [reflexivity|].
  apply (pad_stays_within_its_array cfg0 fr0 w_small). reflexivity.
Defined.

(** * Further properties *)

(** ** The macro [ALIGN_UP] *)

(** X1.  On a [size_t] operand that is not within 511 of the top of the
    type, [ALIGN_UP(v, SECTOR_SIZE)] is the least multiple of 512 that is
    not below [v]. *)
Theorem ALIGN_UP_least_multiple (v : Z) :
  0 <= v -> v + 511 < 2 ^ 64 ->
  let a := ALIGN_UP usize v SECTOR_SIZE in
  a mod 512 = 0 ∧ v <= a < v + 512 ∧
  ∀ m, m mod 512 = 0 -> v <= m -> a <= m.
Proof.
  intros H0 H1 a. unfold a. rewrite ALIGN_UP_usize_small by lia.
  pose proof (Z.div_mod (v + 511) 512 ltac:(lia)) as D.
  pose proof (Z.mod_pos_bound (v + 511) 512 ltac:(lia)) as B.
  split; [by rewrite Z.mul_comm, Z.mod_mul|]. split; [lia|].
  intros m Hm Hv.
  pose proof (Z.div_mod m 512 ltac:(lia)) as Dm. rewrite Hm in Dm.
  assert ((v + 511) / 512 <= m / 512); [|lia].
  apply Z.lt_succ_r. apply Z.div_lt_upper_bound; lia.
Qed.

Lemma ALIGN_UP_least_multiple_witness :
  0 <= 1476 ∧ 1476 + 511 < 2 ^ 64 ∧
  let a := ALIGN_UP usize 1476 SECTOR_SIZE in
  a mod 512 = 0 ∧ 1476 <= a < 1476 + 512 ∧
  ∀ m, m mod 512 = 0 -> 1476 <= m -> a <= m.
Proof.
  split; [lia|]. split; [lia|].
  apply (ALIGN_UP_least_multiple 1476); lia.
Defined.

(** X2.  Within 511 of the top of [size_t] the addition in the macro
    wraps around and [ALIGN_UP] yields 0, below its operand. *)
Theorem ALIGN_UP_wraps_to_zero (v : Z) :
  2 ^ 64 - 512 < v < 2 ^ 64 -> ALIGN_UP usize v SECTOR_SIZE = 0.
Proof.
  intros Hv. rewrite ALIGN_UP_usize by lia.
  unfold usize.
  replace (v + 511) with ((v + 511 - 2 ^ 64) + 1 * 2 ^ 64) by lia.
  rewrite Z.mod_add by lia. rewrite Z.mod_small by lia.
  rewrite Z.div_small by lia. reflexivity.
Qed.

Lemma ALIGN_UP_wraps_to_zero_witness :
  2 ^ 64 - 512 < 2 ^ 64 - 1 < 2 ^ 64 ∧
  ALIGN_UP usize (2 ^ 64 - 1) SECTOR_SIZE = 0.
Proof.
  split; [lia|]. apply (ALIGN_UP_wraps_to_zero (2 ^ 64 - 1)). lia.
Defined.

(** ** [output_append] *)

(** X3.  [output_append] returns 0 from every call, whatever its
    arguments and whatever the kernel answers, and prints nothing: its
    [mmap] result is never the null pointer it is compared with, so the
    branch that prints "mmap" and returns -1 is never taken.  The mapping
    it makes is gone when it returns and no descriptor is opened or
    closed. *)
Theorem output_append_always_returns_zero (out_fd in_fd sz : Z) (w : world) :
  ∃ w', output_append out_fd in_fd sz w = Some (0, w') ∧
        w_stderr w' = w_stderr w ∧
        mapped_pages w' = mapped_pages w ∧
        open_fds w' = open_fds w.
Proof.
  destruct (output_append_res out_fd in_fd sz w) as (w' & E & F & Mp & S).
  by exists w'.
Qed.

(** X4.  When the kernel refuses the mapping, [output_append] copies
    nothing and still returns 0 without a diagnostic: no file changes. *)
Theorem failed_mmap_is_skipped_silently (out_fd in_fd sz : Z) (w : world)
    (s : list outcome) :
  w_script w = Fail :: s ->
  ∃ w', output_append out_fd in_fd sz w = Some (0, w') ∧
        w_fs w' = w_fs w ∧
        w_stderr w' = w_stderr w ∧
        writes_to out_fd (drop (length (w_trace w)) (w_trace w')) = [[]].
Proof.
  intros Hs. unfold output_append.
  assert (E1 : sys_mmap sz in_fd w
               = Some (MAP_FAILED,
                       log (EvMmap in_fd sz MAP_FAILED) (with_script s w))).
  { unfold sys_mmap, next_outcome. rewrite Hs.
    by destruct (w_fds (with_script s w) !! in_fd). }
  rewrite (bind_some _ _ _ _ _ E1); cbv beta.
  change (MAP_FAILED =? NULL) with false. cbv iota.
  set (w1 := log _ (with_script s w)).
  assert (E2 : ∃ r, sys_write_ptr out_fd MAP_FAILED sz w1
                    = Some (r, log (EvWrite out_fd []) (next_outcome w1).2)).
  { unfold sys_write_ptr, mapped. rewrite MAP_FAILED_unaligned.
    unfold sys_write. destruct (next_outcome w1) as [o w2]. cbn [snd].
    destruct (w_fds w2 !! out_fd); [|destruct o; eauto]. eauto. }
  destruct E2 as (r & E2).
  rewrite (bind_some _ _ _ _ _ E2); cbv beta.
  unfold bind, sys_munmap, ret. rewrite MAP_FAILED_unaligned, andb_false_r.
  eexists. split; [reflexivity|].
  destruct (next_outcome_keeps w1) as (_ & _ & _ & Hfs).
  assert (Htr : w_trace (next_outcome w1).2 = w_trace w1).
  { unfold next_outcome. by destruct (w_script w1). }
  assert (Hse : w_stderr (next_outcome w1).2 = w_stderr w1).
  { unfold next_outcome. by destruct (w_script w1). }
  split; [|split].
  - cbn [w_fs log]. by rewrite Hfs.
  - cbn [w_stderr log]. by rewrite Hse.
  - cbn [w_trace log]. rewrite Htr. subst w1. cbn [w_trace log with_script].
    rewrite <- !app_assoc, drop_app_length. cbn.
    by rewrite decide_True.
Qed.

Lemma failed_mmap_is_skipped_silently_witness :
  w_script (boot_world (fs_of [Byte.x01] []) [Fail]) = Fail :: [] ∧
  ∃ w', output_append 1 0 1 (boot_world (fs_of [Byte.x01] []) [Fail])
        = Some (0, w') ∧
        w_fs w' = w_fs (boot_world (fs_of [Byte.x01] []) [Fail]) ∧
        w_stderr w' = w_stderr (boot_world (fs_of [Byte.x01] []) [Fail]) ∧
        writes_to 1 (drop (length (w_trace (boot_world (fs_of [Byte.x01] []) [Fail])))
                       (w_trace w')) = [[]].
Proof.
  split; [reflexivity|].
  apply (failed_mmap_is_skipped_silently 1 0 1 _ []). reflexivity.
Defined.

(** ** The header and the report of a clean run *)

Lemma stored_sectors_formula (t : Z) :
  stored_sectors t = sectors (t mod 65536) mod 128.
Proof.
  unfold stored_sectors, sectors. change (u16 t) with (t mod 65536).
  pose proof (Z.mod_pos_bound t 65536 ltac:(lia)) as Hs.
  set (s := t mod 65536) in *.
  assert (Hq : 0 <= (s + 511) / 512 <= 128).
  { split; [apply Z.div_pos; lia|].
    apply Z.lt_succ_r. apply Z.div_lt_upper_bound; lia. }
  set (q := (s + 511) / 512) in *.
  destruct (decide (q = 128)) as [->|Hne]; [reflexivity|].
  rewrite u16_small by lia.
  rewrite Z.mul_comm, Z.div_mul by lia.
  symmetry. apply Z.mod_small. lia.
Qed.

(** X5.  In a clean run the header in the file has [hdr_size = 36], and
    its [sector_count] is the number of sectors of the byte total
    [36 + b + k] reduced modulo 65536, itself reduced modulo 128; up to a
    total of 65024 bytes this is the number of sectors of the file, whose
    length is then [sector_count * 512]. *)
Theorem header_sector_count cfg fr w bs k :
  clean_run cfg fr w bs k ->
  let total := 36 + len bs + len k in
  ∃ w' img, generate cfg fr w = Some (0, w') ∧
    w_fs w' !! output_file cfg = Some img ∧
    hdr_size (parse_header img) = 36 ∧
    sector_count (parse_header img) = sectors (total mod 65536) mod 128 ∧
    (total <= 65024 ->
       sector_count (parse_header img) = sectors total ∧
       len img = sector_count (parse_header img) * 512).
Proof.
  intros H total.
  destruct (clean_image_length _ _ _ _ _ H)
    as (w' & img & E & Hfs & Hl & _ & _ & Hsmall).
  destruct (image_of_clean _ _ _ _ _ H) as (w2 & E2 & Hfs2).
  rewrite E in E2. injection E2 as <-. rewrite Hfs in Hfs2.
  injection Hfs2 as ->.
  pose proof (cr_size _ _ _ _ _ H) as Hsz.
  exists w', (image fr bs k). split; [done|]. split; [done|].
  rewrite parse_image by done. cbn [hdr_size sector_count]. fold total.
  split; [done|]. split; [apply stored_sectors_formula|].
  intros Hs. split.
  - apply stored_sectors_small.
    pose proof (len_nonneg bs). pose proof (len_nonneg k).
    unfold total in *. lia.
  - specialize (Hsmall Hs). rewrite parse_image in Hsmall by done.
    exact Hsmall.
Qed.

Lemma header_sector_count_witness :
  clean_run cfg0 fr0 w_one_sector (repeat Byte.x01 200) (repeat Byte.x02 276) ∧
  ∃ w' img, generate cfg0 fr0 w_one_sector = Some (0, w') ∧
    w_fs w' !! "kernel.img" = Some img ∧
    hdr_size (parse_header img) = 36 ∧
    sector_count (parse_header img) = sectors (512 mod 65536) mod 128 ∧
    (512 <= 65024 ->
       sector_count (parse_header img) = sectors 512 ∧
       len img = sector_count (parse_header img) * 512).
Proof.
  assert (H : clean_run cfg0 fr0 w_one_sector
                (repeat Byte.x01 200) (repeat Byte.x02 276)).
  { apply clean_sample; [constructor | vm_compute; reflexivity]. }
  split; [exact H|].
  apply (header_sector_count cfg0 fr0 w_one_sector _ _ H).
Defined.

(** X6.  A clean run prints one report, the byte total [36 + b + k] and
    the count of fill bytes; the two add up to the length of the file,
    and nothing goes to the error stream. *)
Theorem report_adds_up_to_file_length cfg fr w bs k :
  clean_run cfg fr w bs k ->
  ∃ w' img total pad,
    generate cfg fr w = Some (0, w') ∧
    w_fs w' !! output_file cfg = Some img ∧
    w_stdout w' = w_stdout w ++ [(total, pad)] ∧
    total = 36 + len bs + len k ∧
    total + pad = len img ∧
    w_stderr w' = w_stderr w.
Proof.
  intros H.
  destruct (generate_clean _ _ _ _ _ H)
    as (w' & E & Hfs & _ & _ & _ & _ & Herr & Hout).
  pose proof (cr_size _ _ _ _ _ H) as Hsz.
  pose proof (len_nonneg bs). pose proof (len_nonneg k).
  exists w', (image fr bs k), (36 + len bs + len k),
    (pad_size (36 + len bs + len k)).
  split; [done|]. split; [rewrite Hfs; apply lookup_insert_eq|].
  split; [done|]. split; [done|]. split; [|done].
  rewrite len_image, total_size_small by lia. reflexivity.
Qed.

Lemma report_adds_up_to_file_length_witness :
  clean_run cfg0 fr0 w_small [Byte.x01] [Byte.x02; Byte.x03] ∧
  ∃ w' img total pad,
    generate cfg0 fr0 w_small = Some (0, w') ∧
    w_fs w' !! "kernel.img" = Some img ∧
    w_stdout w' = w_stdout w_small ++ [(total, pad)] ∧
    total = 36 + 1 + 2 ∧
    total + pad = len img ∧
    w_stderr w' = w_stderr w_small.
Proof.
  assert (H : clean_run cfg0 fr0 w_small [Byte.x01] [Byte.x02; Byte.x03]).
  { apply clean_sample; [constructor | vm_compute; reflexivity]. }
  split; [exact H|].
  apply (report_adds_up_to_file_length cfg0 fr0 w_small _ _ H).
Defined.

(** X7.  An empty source is no error: [mmap] refuses its length of zero
    with [MAP_FAILED], nothing of it is written, and the run goes on to
    a file that holds the header, the other payload and the fill. *)
Theorem empty_bootstrap_is_skipped cfg fr w k :
  clean_run cfg fr w [] k ->
  ∃ w' tr,
    generate cfg fr w = Some (0, w') ∧
    w_trace w' = w_trace w ++ tr ∧
    EvMmap (bs_fd_of cfg w) 0 MAP_FAILED ∈ tr ∧
    w_fs w' !! output_file cfg
      = Some (hdr_bytes (header_of (fr_hdr fr) 0 (len k)) ++ k ++ fill [] k) ∧
    w_stderr w' = w_stderr w.
Proof.
  intros H.
  destruct (generate_clean _ _ _ _ _ H)
    as (w' & E & Hfs & _ & _ & _ & Htr & Herr & _).
  exists w', (run_trace cfg fr w [] k).
  split; [done|]. split; [done|]. split.
  - unfold run_trace. apply elem_of_app. left.
    do 8 apply list_elem_of_further. apply list_elem_of_here.
  - split; [|done]. rewrite Hfs, lookup_insert_eq. reflexivity.
Qed.

Lemma empty_bootstrap_is_skipped_witness :
  clean_run cfg0 fr0 (boot_world (fs_of [] [Byte.x02]) []) [] [Byte.x02] ∧
  ∃ w' tr,
    generate cfg0 fr0 (boot_world (fs_of [] [Byte.x02]) []) = Some (0, w') ∧
    w_trace w' = w_trace (boot_world (fs_of [] [Byte.x02]) []) ++ tr ∧
    EvMmap 3 0 MAP_FAILED ∈ tr ∧
    w_fs w' !! "kernel.img"
      = Some (hdr_bytes (header_of junk_hdr 0 1) ++ [Byte.x02]
                ++ fill [] [Byte.x02]) ∧
    w_stderr w' = w_stderr (boot_world (fs_of [] [Byte.x02]) []).
Proof.
  assert (H : clean_run cfg0 fr0 (boot_world (fs_of [] [Byte.x02]) [])
                [] [Byte.x02]).
  { apply clean_sample; [constructor | vm_compute; reflexivity]. }
  split; [exact H|].
  apply (empty_bootstrap_is_skipped cfg0 fr0 _ _ H).
Defined.

(** X8.  The header is 36 bytes, its fields packed in declaration order
    and little-endian at offsets 0, 2, 4, 12, 20 and 28: read back from
    the head of an image, every field is the value that was stored. *)
Theorem header_reads_back (h : image_header) (rest : list byte) :
  well_typed h ->
  len (hdr_bytes h) = sizeof_hdr ∧
  parse_header (hdr_bytes h ++ rest) = h.
Proof.
  intros (H1 & H2 & H3 & H4 & H5 & H6). split.
  - unfold len. by rewrite length_hdr_bytes.
  - rewrite parse_hdr_bytes.
    rewrite !u16_small, !off_small, !usize_small by done.
    by destruct h.
Qed.

Lemma header_reads_back_witness :
  well_typed (header_of junk_hdr 1 2) ∧
  len (hdr_bytes (header_of junk_hdr 1 2)) = sizeof_hdr ∧
  parse_header (hdr_bytes (header_of junk_hdr 1 2) ++ [Byte.x01])
  = header_of junk_hdr 1 2.
Proof.
  assert (H : well_typed (header_of junk_hdr 1 2))
    by (vm_compute; intuition discriminate).
  split; [exact H|].
  apply (header_reads_back (header_of junk_hdr 1 2) [Byte.x01] H).
Defined.

(** ** The files a run changes *)

Section Frame.

Lemma touches_only_refl fd w : touches_only fd w w.
Proof. split; [done|]. by intros p _ q _. Qed.

Lemma touches_only_trans fd w1 w2 w3 :
  touches_only fd w1 w2 -> touches_only fd w2 w3 -> touches_only fd w1 w3.
Proof.
  intros [P1 S1] [P2 S2]. split; [congruence|].
  intros p Hp q Hq. rewrite (S2 p), (S1 p); try done. by rewrite P1.
Qed.

Lemma touches_only_same fd w w' :
  fd_paths w' = fd_paths w -> w_fs w' = w_fs w -> touches_only fd w w'.
Proof. intros P S. split; [done|]. intros p _ q _. by rewrite S. Qed.

Lemma fd_paths_reposition w fd e pos wr :
  w_fds w !! fd = Some e ->
  fe_path <$> <[fd := FdEntry (fe_path e) pos wr]> (w_fds w) = fd_paths w.
Proof.
  intros E. unfold fd_paths. rewrite fmap_insert. cbn [fe_path].
  apply insert_id. by rewrite lookup_fmap, E.
Qed.

Lemma sys_open_frame w p fl :
  openable w p fl = true ->
  ∃ w', sys_open p fl w = Some (lowest_free (w_fds w) 0, w') ∧
        fd_paths w' = <[lowest_free (w_fds w) 0 := p]> (fd_paths w) ∧
        same_files_but p w w' ∧
        w_locked w' = w_locked w ∧
        (fl = O_RDONLY -> w_fs w' = w_fs w).
Proof.
  unfold openable, sys_open. intros H%negb_true_iff. rewrite H.
  eexists. split; [reflexivity|]. unfold fd_paths, same_files_but. simpl.
  split; [by rewrite fmap_insert|]. split.
  - intros q Hq.
    lazymatch goal with
    | |- context [if ?b then _ else _] => destruct b
    end; [by rewrite lookup_insert_ne|done].
  - split; [done|]. intros ->. change (Z.testbit O_RDONLY 9) with false.
    change (Z.testbit O_RDONLY 6) with false in H.
    rewrite andb_true_r in H. apply orb_false_iff in H as [H _].
    by rewrite H.
Qed.

Lemma sys_close_frame fd w :
  ∃ r w', sys_close fd w = Some (r, w') ∧ w_fs w' = w_fs w.
Proof. unfold sys_close. eexists _, _. by split. Qed.

Lemma sys_lseek_frame fd o wh w out :
  ∃ r w', sys_lseek fd o wh w = Some (r, w') ∧ touches_only out w w'.
Proof.
  unfold sys_lseek.
  destruct (w_fds w !! fd) as [e|] eqn:E.
  - destruct (_ <? 0); eexists _, _; (split; [reflexivity|]);
      apply touches_only_same; try done.
    by apply fd_paths_reposition.
  - eexists _, _. split; [reflexivity|]. by apply touches_only_same.
Qed.

Lemma next_outcome_frame w :
  fd_paths (next_outcome w).2 = fd_paths w ∧
  w_fds (next_outcome w).2 = w_fds w ∧
  w_fs (next_outcome w).2 = w_fs w.
Proof. unfold next_outcome. destruct (w_script w); simpl; by repeat split. Qed.

Lemma sys_write_frame fd buf n w :
  ∃ r w', sys_write fd buf n w = Some (r, w') ∧ touches_only fd w w'.
Proof.
  unfold sys_write.
  destruct (next_outcome_frame w) as (P & F & S).
  destruct (next_outcome w) as [o w1]. simpl in P, F, S.
  assert (Hsame : ∀ (r : Z) (e : event), ∃ r' w',
            Some (r, log e w1) = Some (r', w') ∧ touches_only fd w w').
  { intros r e. eexists _, _. split; [reflexivity|].
    by apply touches_only_same. }
  assert (Hwr : ∀ e (d : list byte) pos, w_fds w1 !! fd = Some e -> ∃ r' w',
            Some (Z.of_nat (length d),
                  log (EvWrite fd d)
                    (with_fds (<[fd := FdEntry (fe_path e) pos true]> (w_fds w1))
                       (with_fs (<[fe_path e :=
                                     pwrite (default [] (w_fs w1 !! fe_path e))
                                       (Z.to_nat (fe_pos e)) d]> (w_fs w1)) w1)))
            = Some (r', w') ∧ touches_only fd w w').
  { intros e d pos E. eexists _, _. split; [reflexivity|]. split.
    - rewrite <- P. by apply fd_paths_reposition.
    - intros p Hp q Hq. simpl.
      unfold fd_paths in Hp. rewrite lookup_fmap, <- F, E in Hp.
      injection Hp as <-. rewrite lookup_insert_ne by done. by rewrite S. }
  destruct (w_fds w1 !! fd) as [e|] eqn:E; [|destruct buf, o; apply Hsame].
  destruct buf as [b|]; [|apply Hsame].
  destruct o; [| |apply Hsame];
    (destruct (fe_write e); [by apply Hwr | apply Hsame]).
Qed.

Lemma sys_mmap_frame len fd w out :
  ∃ r w', sys_mmap len fd w = Some (r, w') ∧ touches_only out w w'.
Proof.
  unfold sys_mmap.
  destruct (next_outcome_frame w) as (P & F & S).
  destruct (next_outcome w) as [o w1]. simpl in P, F, S.
  destruct (w_fds w1 !! fd) as [e|];
    [|eexists _, _; split; [reflexivity | by apply touches_only_same]].
  destruct o; [| |eexists _, _; split;
                    [reflexivity | by apply touches_only_same]];
    (destruct ((0 <? len) && negb (fe_write e));
     eexists _, _; (split; [reflexivity | by apply touches_only_same])).
Qed.

Lemma sys_munmap_frame addr len w out :
  ∃ r w', sys_munmap addr len w = Some (r, w') ∧ touches_only out w w'.
Proof.
  unfold sys_munmap.
  destruct ((0 <? len) && (addr mod PAGE_SIZE =? 0));
    eexists _, _; (split; [reflexivity | by apply touches_only_same]).
Qed.

Lemma output_append_frame out_fd in_fd sz w :
  ∃ w', output_append out_fd in_fd sz w = Some (0, w') ∧
        touches_only out_fd w w'.
Proof.
  unfold output_append.
  destruct (sys_mmap_frame sz in_fd w out_fd) as (data & w1 & E1 & K1).
  destruct (sys_mmap_res sz in_fd w) as (data' & w1' & E1' & Hnull & _).
  rewrite E1 in E1'. injection E1' as <- <-.
  rewrite (bind_some _ _ _ _ _ E1); cbv beta.
  destruct (Z.eqb_spec data NULL) as [|_]; [done|].
  destruct (sys_write_frame out_fd (mapped w1 data) sz w1)
    as (r2 & w2 & E2 & K2).
  change (sys_write_ptr out_fd data sz w1 = Some (r2, w2)) in E2.
  rewrite (bind_some _ _ _ _ _ E2); cbv beta.
  destruct (sys_munmap_frame data sz w2 out_fd) as (r3 & w3 & E3 & K3).
  rewrite (bind_some _ _ _ _ _ E3); cbv beta.
  eexists. split; [reflexivity|].
  eauto using touches_only_trans.
Qed.

End Frame.

Ltac run_frame out :=
  lazymatch goal with
  | |- context [bind (sys_lseek ?a ?b ?c) _ ?w] =>
      let r := fresh "r" in let w' := fresh "w" in
      let E := fresh "E" in let K := fresh "K" in
      destruct (sys_lseek_frame a b c w out) as (r & w' & E & K);
      rewrite (bind_some _ _ _ _ _ E); cbv beta; clear E
  | |- context [bind (sys_write ?a ?b ?c) _ ?w] =>
      let r := fresh "r" in let w' := fresh "w" in
      let E := fresh "E" in let K := fresh "K" in
      destruct (sys_write_frame a b c w) as (r & w' & E & K);
      rewrite (bind_some _ _ _ _ _ E); cbv beta; clear E
  | |- context [bind (output_append ?a ?b ?c) _ ?w] =>
      let w' := fresh "w" in
      let E := fresh "E" in let K := fresh "K" in
      destruct (output_append_frame a b c w) as (w' & E & K);
      rewrite (bind_some _ _ _ _ _ E); cbv beta; clear E
  end.

Ltac run_close_frame :=
  lazymatch goal with
  | |- context [bind (sys_close ?a) _ ?w] =>
      let r := fresh "r" in let w' := fresh "w" in
      let E := fresh "E" in let S := fresh "S" in
      destruct (sys_close_frame a w) as (r & w' & E & S);
      rewrite (bind_some _ _ _ _ _ E); cbv beta; clear E
  end.

(** X9.  Whatever the files and whatever the kernel answers, a run of
    [generate] changes no file other than the output file; and a run that
    returns other than 0 changes no file at all, the output included. *)
Theorem generate_changes_only_the_output cfg fr w :
  length (fr_pad fr) = 512%nat ->
  ∃ r w', generate cfg fr w = Some (r, w') ∧
          same_files_but (output_file cfg) w w' ∧
          (r ≠ 0 -> w_fs w' = w_fs w).
Proof.
  intros Hpad. unfold generate.
  (* open the bootstrap *)
  destruct (openable w (bootstrap_path cfg) O_RDONLY) eqn:O1.
  2: { rewrite (bind_some _ _ _ _ _ (sys_open_fail _ _ _ O1)); cbv beta.
       eexists _, _. split; [reflexivity|]. split; [by intros q _|done]. }
  destruct (sys_open_frame _ _ _ O1) as (w1 & E1 & P1 & _ & L1 & S1).
  rewrite (bind_some _ _ _ _ _ E1); cbv beta. clear E1. specialize (S1 eq_refl).
  pose proof (lowest_free_ge (w_fds w) 0) as G1.
  set (bs_fd := lowest_free (w_fds w) 0) in *.
  destruct (Z.ltb_spec bs_fd 0) as [|_]; [lia|].
  (* open the kernel *)
  destruct (openable w1 (kernel_path cfg) O_RDONLY) eqn:O2.
  2: { rewrite (bind_some _ _ _ _ _ (sys_open_fail _ _ _ O2)); cbv beta.
       change (-1 <? 0) with true. cbv iota. run_close_frame.
       eexists _, _. split; [reflexivity|].
       change (w_fs (log (EvOpen (kernel_path cfg) O_RDONLY (-1)) w1))
         with (w_fs w1) in S.
       assert (w_fs w0 = w_fs w) as Hfs by congruence.
       split; [intros q _; by rewrite Hfs|done]. }
  destruct (sys_open_frame _ _ _ O2) as (w2 & E2 & P2 & _ & L2 & S2).
  rewrite (bind_some _ _ _ _ _ E2); cbv beta. clear E2. specialize (S2 eq_refl).
  pose proof (lowest_free_ge (w_fds w1) 0) as G2.
  set (k_fd := lowest_free (w_fds w1) 0) in *.
  destruct (Z.ltb_spec k_fd 0) as [|_]; [lia|].
  (* create the output *)
  change (Z.lor (Z.lor O_WRONLY O_CREAT) O_TRUNC) with CREATE_FLAGS.
  destruct (openable w2 (output_file cfg) CREATE_FLAGS) eqn:O3.
  2: { rewrite (bind_some _ _ _ _ _ (sys_open_fail _ _ _ O3)); cbv beta.
       change (-1 <? 0) with true. cbv iota.
       rewrite (bind_some (perror _) _ _ _ _ eq_refl); cbv beta.
       do 2 run_close_frame.
       eexists _, _. split; [reflexivity|].
       change (w_fs (log_err _ (log _ w2))) with (w_fs w2) in S.
       assert (w_fs w3 = w_fs w) as Hfs by congruence.
       split; [intros q _; by rewrite Hfs|done]. }
  destruct (sys_open_frame _ _ _ O3) as (w3 & E3 & P3 & S3 & _ & _).
  rewrite (bind_some _ _ _ _ _ E3); cbv beta. clear E3.
  pose proof (lowest_free_ge (w_fds w2) 0) as G3.
  set (out_fd := lowest_free (w_fds w2) 0) in *.
  destruct (Z.ltb_spec out_fd 0) as [|_]; [lia|].
  assert (Hout : fd_paths w3 !! out_fd = Some (output_file cfg))
    by (rewrite P3; apply lookup_insert_eq).
  (* measure, write the header, copy the payloads *)
  do 5 (run_frame out_fd).
  run_frame out_fd. change (0 <? 0) with false. cbv iota.
  run_frame out_fd. change (0 <? 0) with false. cbv iota.
  (* the fill bytes *)
  set (bs_sz := usize r) in *. set (k_sz := usize r1) in *.
  pose proof (pad_size_range (total_size k_sz bs_sz)
                (usize_range _)) as Hps.
  change (usize (ALIGN_UP usize (total_size k_sz bs_sz) SECTOR_SIZE
                 - total_size k_sz bs_sz))
    with (pad_size (total_size k_sz bs_sz)).
  set (pad_sz := pad_size (total_size k_sz bs_sz)) in *.
  assert (Hfill : ∀ wa, ∃ w', touches_only out_fd wa w' ∧
            (if 0 <? pad_sz
             then pad <~ array_access (memset (fr_pad fr) 238 pad_sz) ;;
                  buf <~ array_access (array_prefix pad pad_sz) ;;
                  sys_write out_fd (Some buf) pad_sz ;;; ret ()
             else ret ()) wa = Some ((), w')).
  { intros wa. destruct (0 <? pad_sz).
    - destruct (memset_pad (fr_pad fr) 238 pad_sz Hpad Hps) as (p' & Em & Ep).
      rewrite Em. unfold array_access at 1, bind at 1.
      rewrite Ep. unfold array_access at 1, bind at 1.
      destruct (sys_write_frame out_fd
                  (Some (repeat (byte.of_Z 238) (Z.to_nat pad_sz)))
                  pad_sz wa) as (r' & w' & E & K').
      rewrite (bind_some _ _ _ _ _ E); cbv beta. by exists w'.
    - exists wa. split; [apply touches_only_refl | done]. }
  lazymatch goal with
  | |- context [bind (if _ then _ else _) _ ?wa] =>
      destruct (Hfill wa) as (w11 & K11 & E11)
  end.
  rewrite (bind_some _ _ _ _ _ E11); cbv beta. clear E11.
  rewrite (bind_some (printf_wrote _ _) _ _ _ _ eq_refl); cbv beta.
  do 3 run_close_frame.
  eexists _, _. split; [reflexivity|]. split; [|done].
  assert (K' : touches_only out_fd w3 w11)
    by (repeat (eapply touches_only_trans; [eassumption|]);
        apply touches_only_refl).
  destruct K' as [_ K']. specialize (K' _ Hout).
  intros q Hq.
  change (w_fs (log_out _ w11)) with (w_fs w11) in *.
  repeat lazymatch goal with
         | H : w_fs ?a = w_fs _ |- w_fs ?a !! _ = _ => rewrite H; clear H
         end.
  rewrite (K' q Hq), (S3 q Hq). congruence.
Qed.

Lemma generate_changes_only_the_output_witness :
  length (fr_pad fr0) = 512%nat ∧
  ∃ r w', generate cfg0 fr0 w_header_write_fails = Some (r, w') ∧
          same_files_but "kernel.img" w_header_write_fails w' ∧
          (r ≠ 0 -> w_fs w' = w_fs w_header_write_fails).
Proof.
  split; [reflexivity|].
  apply (generate_changes_only_the_output cfg0 fr0 w_header_write_fails).
  reflexivity.
Defined.

(** ** A source that is also the output *)

(** [output_append] of a source of length zero, whatever [in_fd] is:
    [mmap] refuses, [write] gets a bad address and a count of zero. *)
Lemma output_append_nothing w out_fd in_fd q oc :
  faultless w ->
  w_fds w !! out_fd = Some (FdEntry q (Z.of_nat (length oc)) true) ->
  w_fs w !! q = Some oc ->
  output_append out_fd in_fd 0 w =
    Some (0,
      World (<[q := oc ++ []]> (w_fs w)) (w_locked w)
        (<[out_fd := FdEntry q (Z.of_nat (length (oc ++ []))) true]>
           (w_fds w))
        (w_maps w)
        (tail (tail (w_script w)))
        (w_trace w ++
           [EvMmap in_fd 0 MAP_FAILED; EvWrite out_fd [];
            EvMunmap MAP_FAILED 0])
        (w_stderr w) (w_stdout w)).
Proof.
  intros Hf Hout Hq. unfold output_append.
  destruct (next_outcome_faultless w Hf) as [N1 Hf1].
  set (w1 := with_script (tail (w_script w)) w) in *.
  assert (E1 : sys_mmap 0 in_fd w
               = Some (MAP_FAILED, log (EvMmap in_fd 0 MAP_FAILED) w1)).
  { unfold sys_mmap. rewrite N1. cbn [w_fds w1 with_script].
    by destruct (w_fds w !! in_fd). }
  rewrite (bind_some _ _ _ _ _ E1); cbv beta.
  change (MAP_FAILED =? NULL) with false. cbv iota.
  assert (E2 : sys_write_ptr out_fd MAP_FAILED 0
                 (log (EvMmap in_fd 0 MAP_FAILED) w1)
               = Some (0, log (EvWrite out_fd [])
                            (with_script (tail (tail (w_script w)))
                               (log (EvMmap in_fd 0 MAP_FAILED) w1)))).
  { unfold sys_write_ptr, mapped. rewrite MAP_FAILED_unaligned.
    unfold sys_write.
    assert (N2' : next_outcome (log (EvMmap in_fd 0 MAP_FAILED) w1)
                  = (Done, with_script (tail (tail (w_script w)))
                             (log (EvMmap in_fd 0 MAP_FAILED) w1))).
    { apply next_outcome_faultless. exact Hf1. }
    rewrite N2'. cbn [w_fds w1 with_script log]. by rewrite Hout. }
  rewrite (bind_some _ _ _ _ _ E2); cbv beta.
  unfold bind, sys_munmap, ret. change (0 <? 0) with false. cbn [andb].
  subst w1. destruct w. norm_world. cbn in Hq, Hout.
  rewrite app_nil_r.
  rewrite (insert_id _ _ _ Hq), (insert_id _ _ _ Hout).
  by rewrite <- !app_assoc.
Qed.

(** The two cases together: the source is empty, or [in_fd] reads it. *)
Lemma output_append_source w out_fd in_fd p q c oc :
  faultless w ->
  c = [] ∨ (∃ pos, w_fds w !! in_fd = Some (FdEntry p pos false) ∧
                   w_fs w !! p = Some c) ->
  w_fds w !! out_fd = Some (FdEntry q (Z.of_nat (length oc)) true) ->
  w_fs w !! q = Some oc ->
  output_append out_fd in_fd (Z.of_nat (length c)) w =
    Some (0,
      World (<[q := oc ++ c]> (w_fs w)) (w_locked w)
        (<[out_fd := FdEntry q (Z.of_nat (length (oc ++ c))) true]>
           (w_fds w))
        (w_maps w)
        (tail (tail (w_script w)))
        (w_trace w ++
           [EvMmap in_fd (Z.of_nat (length c))
              (map_addr w (Z.of_nat (length c)));
            EvWrite out_fd c;
            EvMunmap (map_addr w (Z.of_nat (length c)))
              (Z.of_nat (length c))])
        (w_stderr w) (w_stdout w)).
Proof.
  intros Hf [->|(pos & Hin & Hp)] Hout Hq.
  - by apply output_append_nothing.
  - by eapply output_append_clean.
Qed.

Lemma measured_source cfg (fs : gmap string (list byte)) p c :
  fs !! p = Some c ->
  <[output_file cfg := []]> fs !! p = Some (measured cfg p c).
Proof.
  intros H. unfold measured. destruct (decide (p = output_file cfg)) as [->|].
  - apply lookup_insert_eq.
  - by rewrite lookup_insert_ne.
Qed.

Lemma len_measured cfg p c : len (measured cfg p c) <= len c.
Proof.
  unfold measured, len. destruct (decide _); simpl; lia.
Qed.

(** X10.  The sources are measured after the output file has been created
    and truncated.  A source that is also the output file therefore
    counts as empty: its contents are lost, and the run still returns 0
    and reports nothing.  The image is that of what was left to read. *)
Theorem output_onto_a_source_empties_it cfg fr w bs k :
  w_fs w !! bootstrap_path cfg = Some bs ->
  w_fs w !! kernel_path cfg = Some k ->
  output_file cfg ∉ w_locked w ->
  faultless w ->
  length (fr_pad fr) = 512%nat ->
  36 + len bs + len k < 2 ^ 64 ->
  let bs' := measured cfg (bootstrap_path cfg) bs in
  let k' := measured cfg (kernel_path cfg) k in
  ∃ w', generate cfg fr w = Some (0, w') ∧
        w_fs w' = <[output_file cfg := image fr bs' k']> (w_fs w) ∧
        w_trace w' = w_trace w ++ run_trace cfg fr w bs' k' ∧
        w_stderr w' = w_stderr w ∧
        w_stdout w' = w_stdout w ++
          [(36 + len bs' + len k', pad_size (36 + len bs' + len k'))].
Proof.
  intros Hbs Hk Hlock Hf Hpad Hsz bs' k'.
  pose proof (len_measured cfg (bootstrap_path cfg) bs) as Lb.
  pose proof (len_measured cfg (kernel_path cfg) k) as Lk.
  fold bs' in Lb. fold k' in Lk.
  unfold run_trace, image, fill.
  pose proof (lowest_free_ge (w_fds w) 0) as G1.
  pose proof (lowest_free_fresh (w_fds w) 0) as N1.
  fold (bs_fd_of cfg w) in G1, N1.
  pose proof (lowest_free_ge
    (<[bs_fd_of cfg w := FdEntry (bootstrap_path cfg) 0 false]> (w_fds w)) 0)
    as G2.
  pose proof (lowest_free_fresh
    (<[bs_fd_of cfg w := FdEntry (bootstrap_path cfg) 0 false]> (w_fds w)) 0)
    as N2.
  fold (k_fd_of cfg w) in G2, N2.
  pose proof (lowest_free_ge
    (<[k_fd_of cfg w := FdEntry (kernel_path cfg) 0 false]>
       (<[bs_fd_of cfg w := FdEntry (bootstrap_path cfg) 0 false]> (w_fds w)))
    0) as G3.
  pose proof (lowest_free_fresh
    (<[k_fd_of cfg w := FdEntry (kernel_path cfg) 0 false]>
       (<[bs_fd_of cfg w := FdEntry (bootstrap_path cfg) 0 false]> (w_fds w)))
    0) as N3.
  fold (out_fd_of cfg w) in G3, N3.
  set (bs_fd := bs_fd_of cfg w) in *.
  set (k_fd := k_fd_of cfg w) in *.
  set (out_fd := out_fd_of cfg w) in *.
  apply lookup_insert_None in N2 as [N2 D12].
  apply lookup_insert_None in N3 as [N3 D23].
  apply lookup_insert_None in N3 as [N3 D13].
  unfold generate.
  destruct w as [fs locked fds maps script trace err out].
  cbn [w_fs w_locked w_fds w_maps w_script w_trace w_stderr w_stdout] in *.
  pose proof (measured_source cfg fs _ _ Hbs) as Hbs1. fold bs' in Hbs1.
  pose proof (measured_source cfg fs _ _ Hk) as Hk1. fold k' in Hk1.
  (* the three opens *)
  erewrite bind_some by (eapply sys_open_rdonly; exact Hbs).
  cbv beta. norm_world.
  change (lowest_free fds 0) with bs_fd.
  destruct (Z.ltb_spec bs_fd 0) as [|_]; [lia|].
  erewrite bind_some by (eapply sys_open_rdonly; exact Hk).
  cbv beta. norm_world.
  change (lowest_free _ 0) with k_fd.
  destruct (Z.ltb_spec k_fd 0) as [|_]; [lia|].
  erewrite bind_some by (eapply sys_open_create; exact Hlock).
  cbv beta. norm_world.
  change (lowest_free (<[k_fd := _]> _) 0) with out_fd.
  destruct (Z.ltb_spec out_fd 0) as [|_]; [lia|].
  (* measuring the sources, after the truncation *)
  erewrite bind_some by (eapply sys_lseek_end; norm_world; fd_lookup).
  cbv beta. unfold file_size. norm_world. cbn [fe_path fe_write].
  rewrite Hbs1. cbn [default from_option id].
  fold (len bs').
  erewrite bind_some by (eapply sys_lseek_set; norm_world; fd_lookup).
  cbv beta. norm_world. cbn [fe_path fe_write].
  erewrite bind_some by (eapply sys_lseek_end; norm_world; fd_lookup).
  cbv beta. unfold file_size. norm_world. cbn [fe_path fe_write].
  rewrite Hk1. cbn [default from_option id].
  fold (len k').
  erewrite bind_some by (eapply sys_lseek_set; norm_world; fd_lookup).
  cbv beta. norm_world. cbn [fe_path fe_write].
  assert (Hb0 : 0 <= len bs') by (unfold len; lia).
  assert (Hk0 : 0 <= len k') by (unfold len; lia).
  rewrite !(usize_small (len bs')), !(usize_small (len k')) by lia.
  fold (header_of (fr_hdr fr) (len bs') (len k')).
  set (hdr := header_of (fr_hdr fr) (len bs') (len k')).
  assert (Ht : ∀ l : list outcome,
             Forall (eq Done) l -> Forall (eq Done) (tail l)).
  { intros [|o l] H; [done|]. by apply Forall_cons in H as [_ H]. }
  unfold faultless in Hf.
  assert (Hsrc : ∀ (fs' : gmap string (list byte))
                    (fds' : gmap Z fd_entry) p c fd,
            (p ≠ output_file cfg -> fs' !! p = Some c ∧
               fds' !! fd = Some (FdEntry p 0 false)) ->
            measured cfg p c = [] ∨
            (∃ pos, fds' !! fd = Some (FdEntry p pos false) ∧
                    fs' !! p = Some (measured cfg p c))).
  { intros fs' fds' p c fd H. unfold measured.
    destruct (decide (p = output_file cfg)) as [|n]; [by left|].
    right. exists 0. destruct (H n). by split. }
  (* the header *)
  erewrite bind_some
    by (eapply (sys_write_append _ _ _ _ []);
        [ by rewrite length_hdr_bytes | exact Hf | norm_world; fd_lookup
        | norm_world; apply lookup_insert_eq ]).
  cbv beta. norm_world.
  (* the bootstrap *)
  erewrite bind_some
    by (eapply (output_append_source _ _ _ (bootstrap_path cfg) _ bs'
                  ([] ++ hdr_bytes hdr));
        [ exact (Ht _ Hf)
        | norm_world; apply Hsrc; intros Hne; split;
          [ rewrite !lookup_insert_ne by done; exact Hbs | fd_lookup ]
        | norm_world; fd_lookup
        | norm_world; apply lookup_insert_eq ]).
  cbv beta. unfold map_addr. norm_world.
  change (0 <? 0) with false. cbv iota.
  (* the kernel *)
  erewrite bind_some
    by (eapply (output_append_source _ _ _ (kernel_path cfg) _ k'
                  (([] ++ hdr_bytes hdr) ++ bs'));
        [ exact (Ht _ (Ht _ (Ht _ Hf)))
        | norm_world; apply Hsrc; intros Hne; split;
          [ rewrite !lookup_insert_ne by done; exact Hk | fd_lookup ]
        | norm_world; fd_lookup
        | norm_world; apply lookup_insert_eq ]).
  cbv beta. unfold map_addr. norm_world.
  change (0 <? 0) with false. cbv iota.
  (* the fill bytes *)
  change (usize (ALIGN_UP usize (total_size (len k') (len bs')) SECTOR_SIZE
                 - total_size (len k') (len bs')))
    with (pad_size (total_size (len k') (len bs'))).
  pose proof (pad_size_range (total_size (len k') (len bs'))
                (usize_range _)) as Hps.
  set (pad_sz := pad_size (total_size (len k') (len bs'))) in *.
  destruct (memset_pad (fr_pad fr) 238 pad_sz Hpad Hps) as (p' & Em & Ep).
  destruct (Z.ltb_spec 0 pad_sz) as [Hpos|Hzero].
  - (* some fill bytes are due *)
    rewrite !bind_assoc, Em.
    erewrite (bind_some (array_access _)) by reflexivity. cbv beta.
    rewrite !bind_assoc, Ep.
    erewrite (bind_some (array_access _)) by reflexivity. cbv beta.
    rewrite !bind_assoc.
    erewrite bind_some
      by (eapply (sys_write_append _ _ _ _
                    ((([] ++ hdr_bytes hdr) ++ bs') ++ k'));
          [ rewrite repeat_length; lia
          | exact (Ht _ (Ht _ (Ht _ (Ht _ (Ht _ Hf)))))
          | norm_world; fd_lookup
          | norm_world; apply lookup_insert_eq ]).
    cbv beta. norm_world.
    unfold bind, ret, printf_wrote, sys_close. norm_world.
    eexists. split; [reflexivity|]. cbv beta iota.
    repeat split.
    + rewrite !insert_insert_eq. f_equal. by rewrite <- !app_assoc.
    + unfold len, CREATE_FLAGS. rewrite <- !app_assoc. reflexivity.
    + subst pad_sz. by rewrite !total_size_small by lia.
  - (* the total is a whole number of sectors *)
    erewrite (bind_some (ret _)) by reflexivity. cbv beta.
    unfold bind, ret, printf_wrote, sys_close. norm_world.
    eexists. split; [reflexivity|]. cbv beta iota.
    assert (Hz0 : pad_sz = 0) by lia.
    repeat split.
    + rewrite !insert_insert_eq, Hz0. f_equal. cbn [Z.to_nat repeat].
      by rewrite <- !app_assoc, app_nil_r.
    + unfold len, CREATE_FLAGS. rewrite <- !app_assoc. reflexivity.
    + subst pad_sz. by rewrite !total_size_small by lia.
Qed.

Lemma output_onto_a_source_empties_it_witness :
  ∃ w', generate cfg_onto_kernel fr0 w_small = Some (0, w') ∧
        w_fs w' = <["kernel.bin" := image fr0 [Byte.x01] []]> (w_fs w_small) ∧
        w_trace w' = w_trace w_small
                     ++ run_trace cfg_onto_kernel fr0 w_small [Byte.x01] [] ∧
        w_stderr w' = w_stderr w_small ∧
        w_stdout w' = w_stdout w_small ++ [(36 + 1 + 0, pad_size (36 + 1 + 0))].
Proof.
  apply (output_onto_a_source_empties_it cfg_onto_kernel fr0 w_small
           [Byte.x01] [Byte.x02; Byte.x03]).
  - apply lookup_insert_eq.
  - unfold w_small, boot_world, fs_of.
    cbn [w_fs bootstrap_path kernel_path cfg_onto_kernel].
    rewrite lookup_insert_ne by done. apply lookup_insert_eq.
  - apply not_elem_of_empty.
  - constructor.
  - reflexivity.
  - vm_compute. reflexivity.
Defined.

(** * The command line *)

Section CommandLine.

Lemma untouched_refl w : untouched w w.
Proof. by repeat split. Qed.

Lemma untouched_trans w1 w2 w3 :
  untouched w1 w2 -> untouched w2 w3 -> untouched w1 w3.
Proof.
  intros (A1 & A2 & A3 & A4 & A5 & A6 & A7) (B1 & B2 & B3 & B4 & B5 & B6 & B7).
  repeat split; congruence.
Qed.

Lemma log_errs_untouched msgs w : untouched w (log_errs msgs w).
Proof.
  unfold log_errs. revert w.
  induction msgs as [|m msgs IH]; intros w; [apply untouched_refl|].
  eapply untouched_trans; [|apply IH]. by repeat split.
Qed.

Lemma char_code_inj c d : char_code c = char_code d -> c = d.
Proof.
  unfold char_code. intros H%N2Z.inj.
  rewrite <- (ascii_N_embedding c), <- (ascii_N_embedding d). congruence.
Qed.

Lemma char_code_nonneg c : 0 <= char_code c.
Proof. unfold char_code. lia. Qed.

Lemma scan_size_eq cl args :
  scan_size (GetoptState cl args)
  = (String.length cl
     + list_sum (map (fun a => S (String.length a)) args))%nat.
Proof. reflexivity. Qed.

Lemma getopt_letter_spec c cl args opt oa go' msgs :
  getopt_letter OPTSTRING c cl args = (opt, oa, go', msgs) ->
  (scan_size go' <= scan_size (GetoptState cl args))%nat ∧
  opt ≠ -1 ∧ (path_result opt -> is_Some oa).
Proof.
  unfold getopt_letter, path_result. pose proof (char_code_nonneg c) as Hc.
  destruct (declared OPTSTRING c) as [[|]|] eqn:D.
  - destruct cl as [|x cl]; [destruct args as [|a args]|];
      intros [= <- <- <- <-]; rewrite !scan_size_eq;
      (split; [unfold list_sum; simpl; lia|]).
    + split; [done|]. intros [H|[H|H]]; vm_compute in H; discriminate.
    + split; [lia|]. eauto.
    + split; [lia|]. eauto.
  - intros [= <- <- <- <-]. split; [done|]. split; [lia|].
    intros [H|[H|H]]; apply char_code_inj in H; subst c;
      vm_compute in D; discriminate.
  - intros [= <- <- <- <-]. split; [done|]. split; [done|].
    intros [H|[H|H]]; vm_compute in H; discriminate.
Qed.

Lemma option_word_size a c cl :
  option_word a = Some (c, cl) ->
  String.length a = S (S (String.length cl)).
Proof.
  destruct a as [|d [|c' cl']]; try done. simpl.
  destruct (Ascii.eqb d "-"); [|done]. by intros [= <- <-].
Qed.

Lemma next_word_size p args c cl args' :
  next_word p args = Some (c, cl, args') ->
  (S (scan_size (GetoptState (String c cl) args'))
   < scan_size (GetoptState "" args))%nat.
Proof.
  rewrite !scan_size_eq. unfold list_sum.
  induction args as [|a args IH]; [done|].
  cbn [next_word]. destruct (String.eqb a "--"); [done|].
  destruct (option_word a) as [[c' cl']|] eqn:W.
  - intros [= -> -> ->]. apply option_word_size in W.
    simpl. lia.
  - destruct p; [|done]. intros H. specialize (IH H).
    simpl in *. lia.
Qed.

(** Every call that returns an option leaves less to scan, and the
    options with a path come with one. *)
Lemma getopt_spec p go opt oa go' msgs :
  getopt p OPTSTRING go = (opt, oa, go', msgs) ->
  opt ≠ -1 ->
  (scan_size go' < scan_size go)%nat ∧ (path_result opt -> is_Some oa).
Proof.
  unfold getopt. destruct go as [cluster args]. cbn [go_cluster go_args].
  destruct cluster as [|c cl].
  - destruct (next_word p args) as [[[c cl] args']|] eqn:W.
    + intros H _. apply getopt_letter_spec in H as (Hs & _ & Ha).
      apply next_word_size in W. rewrite !scan_size_eq in *.
      cbn [String.length] in W. split; [lia|done].
    + by intros [= <- <- <- <-] ?.
  - intros H _. apply getopt_letter_spec in H as (Hs & _ & Ha).
    split; [|done]. rewrite scan_size_eq in *. cbn [String.length]. lia.
Qed.

(** The loop ends for every command line: it makes no system call, and
    a [return] inside it gives -1 after printing something. *)
Lemma option_loop_total n p go g w :
  (scan_size go < n)%nat ->
  ∃ e w', option_loop n p go g w = Some (e, w') ∧ untouched w w' ∧
          match e with
          | Returned r out => r = -1 ∧ out ≠ []
          | Parsed _ => True
          end.
Proof.
  revert go g w. induction n as [|n IH]; intros go g w Hn; [lia|].
  cbn [option_loop].
  destruct (getopt p OPTSTRING go) as [[[opt oa] go'] msgs] eqn:E.
  pose proof (log_errs_untouched msgs w) as U.
  destruct (Z.eqb_spec opt (-1)) as [|Hne]; [by eexists _, _|].
  destruct (getopt_spec _ _ _ _ _ _ E Hne) as [Hs Ha].
  assert (Hrec : ∀ g', ∃ e w',
            option_loop n p go' g' (log_errs msgs w) = Some (e, w') ∧
            untouched w w' ∧
            match e with
            | Returned r out => r = -1 ∧ out ≠ []
            | Parsed _ => True
            end).
  { intros g'. destruct (IH go' g' (log_errs msgs w)) as (e & w' & E' & U' & He);
      [lia|]. exists e, w'. eauto using untouched_trans. }
  destruct (Z.eqb_spec opt (char_code "h")); [by eexists _, _|].
  destruct (Z.eqb_spec opt (char_code "v")); [by eexists _, _|].
  unfold path_result in Ha.
  destruct (Z.eqb_spec opt (char_code "o"));
    [destruct Ha as [s ->]; [tauto | apply Hrec]|].
  destruct (Z.eqb_spec opt (char_code "b"));
    [destruct Ha as [s ->]; [tauto | apply Hrec]|].
  destruct (Z.eqb_spec opt (char_code "k"));
    [destruct Ha as [s ->]; [tauto | apply Hrec]|].
  apply Hrec.
Qed.

(** More calls allowed change nothing. *)
Lemma option_loop_more n m p go g w x :
  option_loop n p go g w = Some x -> (n <= m)%nat ->
  option_loop m p go g w = Some x.
Proof.
  revert m go g w. induction n as [|n IH]; intros m go g w H Hm; [done|].
  destruct m as [|m]; [lia|]. cbn [option_loop] in *.
  destruct (getopt p OPTSTRING go) as [[[opt oa] go'] msgs].
  destruct (opt =? -1); [done|].
  destruct (opt =? char_code "h"); [done|].
  destruct (opt =? char_code "v"); [done|].
  destruct (opt =? char_code "o");
    [destruct oa; [apply IH; [done|lia] | done]|].
  destruct (opt =? char_code "b");
    [destruct oa; [apply IH; [done|lia] | done]|].
  destruct (opt =? char_code "k");
    [destruct oa; [apply IH; [done|lia] | done]|].
  apply IH; [done|lia].
Qed.

Lemma option_loop_enough n m p go g w :
  (scan_size go < n)%nat -> (scan_size go < m)%nat ->
  option_loop n p go g w = option_loop m p go g w.
Proof.
  intros Hn Hm.
  destruct (option_loop_total (S (scan_size go)) p go g w) as (e & w' & E & _);
    [lia|].
  rewrite (option_loop_more _ n _ _ _ _ _ E) by lia.
  by rewrite (option_loop_more _ m _ _ _ _ _ E) by lia.
Qed.

(** One setting is read by one call of [getopt]. *)
Lemma option_loop_setting n p s rest g w :
  well_formed s ->
  option_loop (S n) p (GetoptState "" (words s ++ rest)) g w
  = option_loop n p (GetoptState "" rest) (assign g s) w.
Proof.
  destruct s as [o att path]. unfold well_formed, words, assign.
  cbn [st_option st_attached st_path]. intros Hwf.
  destruct att.
  - destruct path as [|x path]; [by specialize (Hwf eq_refl)|].
    destruct o; reflexivity.
  - destruct o; reflexivity.
Qed.

Lemma option_loop_settings n p l rest g w :
  Forall well_formed l ->
  option_loop (length l + n) p (GetoptState "" (command_line l ++ rest)) g w
  = option_loop n p (GetoptState "" rest) (fold_left assign l g) w.
Proof.
  intros Hwf. revert g. induction Hwf as [|s l Hs _ IH]; intros g; [done|].
  unfold command_line. cbn [flat_map length fold_left Nat.add].
  rewrite <- app_assoc, option_loop_setting by done. apply IH.
Qed.

Lemma scan_size_app l1 l2 :
  scan_size (GetoptState "" (l1 ++ l2))
  = (scan_size (GetoptState "" l1) + scan_size (GetoptState "" l2))%nat.
Proof.
  rewrite !scan_size_eq. unfold list_sum. induction l1 as [|a l1 IH]; [done|].
  simpl in *. lia.
Qed.

Lemma scan_size_command_line l :
  (length l <= scan_size (GetoptState "" (command_line l)))%nat.
Proof.
  rewrite scan_size_eq. unfold list_sum, command_line.
  induction l as [|s l IH]; [done|].
  cbn [flat_map length]. rewrite map_app, fold_right_app.
  set (t := fold_right _ _ (map _ (flat_map words l))) in *.
  cbn [String.length] in IH. destruct s as [o [|] path]; simpl; lia.
Qed.

(** The settings at the head of a command line are assigned in their
    order; the loop goes on with the words after them. *)
Lemma option_loop_after_settings p l rest g w :
  Forall well_formed l ->
  option_loop (S (scan_size (GetoptState "" (command_line l ++ rest))))
    p (GetoptState "" (command_line l ++ rest)) g w
  = option_loop (S (scan_size (GetoptState "" rest)))
      p (GetoptState "" rest) (fold_left assign l g) w.
Proof.
  intros Hwf.
  pose proof (scan_size_app (command_line l) rest) as Ha.
  pose proof (scan_size_command_line l) as Hl.
  rewrite (option_loop_enough _
             (length l + S (scan_size (GetoptState "" (command_line l ++ rest)))))
    by lia.
  rewrite option_loop_settings by done.
  apply option_loop_enough; lia.
Qed.

(** [main] once it has found an argument. *)
Lemma main_with_arguments p prog args fr w :
  args ≠ [] ->
  main p (prog :: args) fr w =
    match option_loop (S (scan_size (GetoptState "" args))) p
            (GetoptState "" args) globals0 w with
    | None => None
    | Some (Returned r out, w) => Some (r, out, w)
    | Some (Parsed g, w) =>
        match g_bootstrap_path g with
        | None => Some (-1, help ["fatal: expected bootstrap path"], w)
        | Some bs =>
            match g_kernel_path g with
            | None => Some (-1, help ["fatal: expected kernel path"], w)
            | Some k =>
                match generate (Params (g_output_file g) bs k) fr w with
                | Some (r, w) => Some (r, [], w)
                | None => None
                end
            end
        end
    end.
Proof.
  intros Hne. destruct args as [|a args]; [done|]. unfold main.
  cbn [length tail].
  destruct (Z.ltb_spec (Z.of_nat (S (S (length args)))) 2) as [|_]; [lia|].
  reflexivity.
Qed.

Lemma command_line_nonempty l rest :
  l ≠ [] -> command_line l ++ rest ≠ [].
Proof.
  destruct l as [|[o [|] path] l]; [done| |]; intros _; discriminate.
Qed.

Lemma option_loop_end n p g w :
  option_loop (S n) p (GetoptState "" []) g w = Some (Parsed g, w).
Proof. reflexivity. Qed.

Lemma skip_operand n a rest g w :
  operand a ->
  option_loop (S n) true (GetoptState "" (a :: rest)) g w
  = option_loop (S n) true (GetoptState "" rest) g w.
Proof.
  unfold operand. intros Ha. cbn [option_loop]. unfold getopt.
  cbn [go_cluster go_args next_word].
  destruct (String.eqb_spec a "--") as [->|_]; [done|]. rewrite Ha.
  by destruct (next_word true rest) as [[[c cl] args']|].
Qed.

Lemma stop_at_operand n a rest g w :
  operand a ->
  option_loop (S n) false (GetoptState "" (a :: rest)) g w
  = Some (Parsed g, w).
Proof.
  unfold operand. intros Ha. cbn [option_loop]. unfold getopt.
  cbn [go_cluster go_args next_word].
  destruct (String.eqb a "--"); [done|]. by rewrite Ha.
Qed.

Lemma skip_unknown n p c rest g w :
  declared OPTSTRING c = None -> c ≠ "-"%char ->
  option_loop (S n) p (GetoptState "" (String "-" (String c "") :: rest)) g w
  = option_loop n p (GetoptState "" rest) g
      (log_err "getopt: invalid option" w).
Proof.
  intros D Hc. cbn [option_loop]. unfold getopt.
  cbn [go_cluster go_args next_word String.eqb Ascii.eqb Bool.eqb option_word].
  apply Ascii.eqb_neq in Hc. rewrite Hc. cbn [andb].
  unfold getopt_letter. rewrite D. reflexivity.
Qed.

Lemma stop_at_help n p cl rest g w :
  option_loop (S n) p (GetoptState "" (String "-" (String "h" cl) :: rest)) g w
  = Some (Returned (-1) (help []), w).
Proof. reflexivity. Qed.

Lemma stop_at_version n p cl rest g w :
  option_loop (S n) p (GetoptState "" (String "-" (String "v" cl) :: rest)) g w
  = Some (Returned (-1) (version []), w).
Proof. reflexivity. Qed.

Lemma bootstrap_not_given l g :
  Forall (fun s => st_option s ≠ OptBootstrap) l ->
  g_bootstrap_path (fold_left assign l g) = g_bootstrap_path g.
Proof.
  intros H. revert g. induction H as [|s l Hs _ IH]; intros g; [done|].
  cbn [fold_left]. rewrite IH. unfold assign. by destruct (st_option s).
Qed.

Lemma kernel_not_given l g :
  Forall (fun s => st_option s ≠ OptKernel) l ->
  g_kernel_path (fold_left assign l g) = g_kernel_path g.
Proof.
  intros H. revert g. induction H as [|s l Hs _ IH]; intros g; [done|].
  cbn [fold_left]. rewrite IH. unfold assign. by destruct (st_option s).
Qed.

Lemma bootstrap_given l g :
  is_Some (g_bootstrap_path g) ∨ Exists (fun s => st_option s = OptBootstrap) l ->
  is_Some (g_bootstrap_path (fold_left assign l g)).
Proof.
  revert g. induction l as [|s l IH]; intros g [H|H]; try done.
  - by apply Exists_nil in H.
  - cbn [fold_left]. apply IH. left. unfold assign.
    destruct (st_option s); cbn; eauto.
  - cbn [fold_left]. apply IH. apply Exists_cons in H as [H|H]; [|by right].
    left. unfold assign. rewrite H. cbn. eauto.
Qed.

End CommandLine.

(** X11.  [main] returns for every command line.  Either it has printed
    something itself (the help, the version, a fatal message): then it
    returns -1 and has made no system call; or it has printed nothing and
    its result is that of [generate]. *)
Theorem main_prints_or_generates p argv fr w :
  length (fr_pad fr) = 512%nat ->
  ∃ r out w', main p argv fr w = Some (r, out, w') ∧
    ((out ≠ [] ∧ r = -1 ∧ untouched w w') ∨
     (out = [] ∧ ∃ cfg w1, untouched w w1 ∧
                           generate cfg fr w1 = Some (r, w'))).
Proof.
  intros Hpad. unfold main.
  destruct (_ <? 2).
  { eexists _, _, _. split; [reflexivity|]. left.
    split; [done|]. split; [done|]. apply untouched_refl. }
  destruct (option_loop_total (S (scan_size (GetoptState "" (tail argv))))
              p (GetoptState "" (tail argv)) globals0 w)
    as (e & w1 & E & U & He); [lia|].
  rewrite E. destruct e as [r out|g].
  { destruct He as [-> Hout]. eexists _, _, _. split; [reflexivity|].
    by left. }
  destruct (g_bootstrap_path g) as [bs|].
  2: { eexists _, _, _. split; [reflexivity|]. by left. }
  destruct (g_kernel_path g) as [k|].
  2: { eexists _, _, _. split; [reflexivity|]. by left. }
  destruct (generate_total (Params (g_output_file g) bs k) fr w1 Hpad)
    as (r & w' & G & _).
  rewrite G. eexists _, _, _. split; [reflexivity|]. right.
  split; [done|]. eauto.
Qed.

Lemma main_prints_or_generates_witness :
  length (fr_pad fr0) = 512%nat ∧
  ∃ r out w', main false ["unistrap"; "-b"; "boot.bin"; "-v"] fr0 w_small
              = Some (r, out, w') ∧
    ((out ≠ [] ∧ r = -1 ∧ untouched w_small w') ∨
     (out = [] ∧ ∃ cfg w1, untouched w_small w1 ∧
                           generate cfg fr0 w1 = Some (r, w'))).
Proof.
  split; [reflexivity|].
  apply (main_prints_or_generates false _ fr0 w_small). reflexivity.
Defined.

(** X12.  The paths on the command line are the ones used.  Settings
    are assigned in their order, so the last one for an option counts;
    the output defaults to [kernel.img]; a path may be in the word of its
    option or be the next word, which is taken whatever it looks like.
    With a bootstrap and a kernel given, [main] is [generate] on the
    paths assigned. *)
Theorem paths_given_are_used p prog l fr w bs k :
  Forall well_formed l ->
  g_bootstrap_path (fold_left assign l globals0) = Some bs ->
  g_kernel_path (fold_left assign l globals0) = Some k ->
  main p (prog :: command_line l) fr w =
    match generate
            (Params (g_output_file (fold_left assign l globals0)) bs k)
            fr w with
    | Some (r, w') => Some (r, [], w')
    | None => None
    end.
Proof.
  intros Hwf Hbs Hk.
  assert (Hne : l ≠ []) by (by intros ->).
  rewrite <- (app_nil_r (command_line l)).
  rewrite main_with_arguments by (by apply command_line_nonempty).
  rewrite option_loop_after_settings, option_loop_end by done.
  by rewrite Hbs, Hk.
Qed.

Lemma paths_given_are_used_witness :
  main true ("unistrap" :: command_line settings0) fr0 w_small =
    match generate
            (Params (g_output_file (fold_left assign settings0 globals0))
               "boot.bin" "kernel.bin")
            fr0 w_small with
    | Some (r, w') => Some (r, [], w')
    | None => None
    end.
Proof.
  apply (paths_given_are_used true "unistrap" settings0 fr0 w_small).
  - repeat constructor; done.
  - reflexivity.
  - reflexivity.
Defined.

(** X13.  [-h] and [-v] end the run wherever they stand among the
    options: the help or the version is printed, the result is -1 and
    [generate] is not run, whatever paths were given before and whatever
    follows. *)
Theorem help_and_version_end_the_run p prog l cl rest fr w :
  Forall well_formed l ->
  main p (prog :: command_line l ++ String "-" (String "h" cl) :: rest) fr w
    = Some (-1, help [], w) ∧
  main p (prog :: command_line l ++ String "-" (String "v" cl) :: rest) fr w
    = Some (-1, version [], w).
Proof.
  intros Hwf. split.
  - rewrite main_with_arguments by (by destruct (command_line l)).
    by rewrite option_loop_after_settings, stop_at_help.
  - rewrite main_with_arguments by (by destruct (command_line l)).
    by rewrite option_loop_after_settings, stop_at_version.
Qed.

Lemma help_and_version_end_the_run_witness :
  main false ("unistrap" :: command_line settings0 ++ ["-h"]) fr0 w_small
    = Some (-1, help [], w_small) ∧
  main false ("unistrap" :: command_line settings0 ++ ["-v"]) fr0 w_small
    = Some (-1, version [], w_small).
Proof.
  apply (help_and_version_end_the_run false "unistrap" settings0 "" []
           fr0 w_small).
  repeat constructor; done.
Defined.

(** X14.  Both sources must be named.  A command line of settings with
    none for the bootstrap gets [fatal: expected bootstrap path]; one
    with a bootstrap and no kernel gets [fatal: expected kernel path].
    Either way the help follows, the result is -1 and no file is
    touched. *)
Theorem missing_source_is_fatal p prog l fr w :
  Forall well_formed l -> l ≠ [] ->
  (Forall (fun s => st_option s ≠ OptBootstrap) l ->
   main p (prog :: command_line l) fr w
   = Some (-1, help ["fatal: expected bootstrap path"], w)) ∧
  (Exists (fun s => st_option s = OptBootstrap) l ->
   Forall (fun s => st_option s ≠ OptKernel) l ->
   main p (prog :: command_line l) fr w
   = Some (-1, help ["fatal: expected kernel path"], w)).
Proof.
  intros Hwf Hne.
  assert (E : main p (prog :: command_line l) fr w =
              match g_bootstrap_path (fold_left assign l globals0) with
              | None => Some (-1, help ["fatal: expected bootstrap path"], w)
              | Some bs =>
                  match g_kernel_path (fold_left assign l globals0) with
                  | None => Some (-1, help ["fatal: expected kernel path"], w)
                  | Some k =>
                      match generate
                              (Params
                                 (g_output_file (fold_left assign l globals0))
                                 bs k) fr w with
                      | Some (r, w') => Some (r, [], w')
                      | None => None
                      end
                  end
              end).
  { rewrite <- (app_nil_r (command_line l)).
    rewrite main_with_arguments by (by apply command_line_nonempty).
    by rewrite option_loop_after_settings, option_loop_end. }
  rewrite E. split.
  - intros Hb. by rewrite bootstrap_not_given.
  - intros Hb Hk.
    destruct (bootstrap_given l globals0 (or_intror Hb)) as [bs ->].
    by rewrite kernel_not_given.
Qed.

Lemma missing_source_is_fatal_witness :
  main false ["unistrap"; "-kkernel.bin"] fr0 w_small
  = Some (-1, help ["fatal: expected bootstrap path"], w_small) ∧
  main false ["unistrap"; "-bboot.bin"] fr0 w_small
  = Some (-1, help ["fatal: expected kernel path"], w_small).
Proof.
  split.
  - apply (missing_source_is_fatal false "unistrap"
             [Setting OptKernel true "kernel.bin"] fr0 w_small);
      repeat constructor; done.
  - apply (missing_source_is_fatal false "unistrap"
             [Setting OptBootstrap true "boot.bin"] fr0 w_small);
      repeat constructor; done.
Defined.

(** X15.  With a [getopt] that follows POSIX, the first word that is no
    option ends the options: what comes after it has no effect, and a
    command line that starts with such a word is refused for want of a
    bootstrap path, whatever options follow. *)
Theorem first_operand_ends_the_options prog l a rest fr w :
  Forall well_formed l -> operand a ->
  main false (prog :: command_line l ++ a :: rest) fr w
  = main false (prog :: command_line l ++ [a]) fr w ∧
  main false (prog :: a :: rest) fr w
  = Some (-1, help ["fatal: expected bootstrap path"], w).
Proof.
  intros Hwf Ha. split.
  - rewrite !main_with_arguments by (by destruct (command_line l)).
    rewrite !option_loop_after_settings by done.
    by rewrite !stop_at_operand.
  - rewrite main_with_arguments by done.
    by rewrite stop_at_operand.
Qed.

Lemma first_operand_ends_the_options_witness :
  main false ("unistrap" :: command_line settings0 ++ "x" :: ["-okernel.bin"])
    fr0 w_small
  = main false ("unistrap" :: command_line settings0 ++ ["x"]) fr0 w_small ∧
  main false ("unistrap" :: "x" :: ["-okernel.bin"]) fr0 w_small
  = Some (-1, help ["fatal: expected bootstrap path"], w_small).
Proof.
  apply (first_operand_ends_the_options "unistrap" settings0 "x"
           ["-okernel.bin"] fr0 w_small).
  - repeat constructor; done.
  - reflexivity.
Defined.

(** X16.  With GNU's [getopt], a word that is no option is passed over
    wherever it stands between settings: the run is the one without
    it. *)
Theorem operands_are_passed_over prog l a rest fr w :
  Forall well_formed l -> operand a -> command_line l ++ rest ≠ [] ->
  main true (prog :: command_line l ++ a :: rest) fr w
  = main true (prog :: command_line l ++ rest) fr w.
Proof.
  intros Hwf Ha Hne.
  rewrite main_with_arguments by (by destruct (command_line l)).
  rewrite main_with_arguments by done.
  rewrite !option_loop_after_settings by done.
  rewrite skip_operand by done.
  rewrite (option_loop_enough _ (S (scan_size (GetoptState "" rest)))); [done| |lia].
  change (a :: rest) with ([a] ++ rest). rewrite scan_size_app. lia.
Qed.

Lemma operands_are_passed_over_witness :
  main true ("unistrap" :: command_line [Setting OptBootstrap false "boot.bin"]
               ++ "x" :: ["-kkernel.bin"]) fr0 w_small
  = main true ("unistrap" :: command_line [Setting OptBootstrap false "boot.bin"]
                 ++ ["-kkernel.bin"]) fr0 w_small.
Proof.
  apply (operands_are_passed_over "unistrap"
           [Setting OptBootstrap false "boot.bin"] "x" ["-kkernel.bin"]
           fr0 w_small).
  - repeat constructor; done.
  - reflexivity.
  - done.
Defined.

(** X17.  An option that is not known does not end the run: [getopt]
    prints its diagnostic, the [switch] of [main] has no case for the
    result, and the run is the one without the word. *)
Theorem unknown_option_is_passed_over p prog c l rest fr w :
  declared OPTSTRING c = None -> c ≠ "-"%char ->
  Forall well_formed l -> command_line l ++ rest ≠ [] ->
  main p (prog :: command_line l ++ String "-" (String c "") :: rest) fr w
  = main p (prog :: command_line l ++ rest) fr
      (log_err "getopt: invalid option" w).
Proof.
  intros D Hc Hwf Hne.
  rewrite main_with_arguments by (by destruct (command_line l)).
  rewrite main_with_arguments by done.
  rewrite !option_loop_after_settings by done.
  rewrite skip_unknown by done.
  rewrite (option_loop_enough _ (S (scan_size (GetoptState "" rest)))); [done| |lia].
  change (?x :: rest) with ([x] ++ rest). rewrite scan_size_app.
  rewrite (scan_size_eq "" [_]). simpl. lia.
Qed.

Lemma unknown_option_is_passed_over_witness :
  main false ("unistrap" :: command_line settings0 ++ "-x" :: []) fr0 w_small
  = main false ("unistrap" :: command_line settings0 ++ []) fr0
      (log_err "getopt: invalid option" w_small).
Proof.
  apply (unknown_option_is_passed_over false "unistrap" "x" settings0 []
           fr0 w_small).
  - reflexivity.
  - done.
  - repeat constructor; done.
  - done.
Defined.
